(** * RBAC dashboard: the store schema and the three entity managers

    A shallow embedding of

    - the relational schema (tables [permissions], [roles],
      [role_permissions], [user_roles]: keys, uniqueness, cascading
      foreign keys, the [updated_at] trigger, the seed rows);
    - [PermissionsManager.tsx], [RolesManager.tsx] and
      [RolePermissionsManager.tsx]: React state as a record that every
      handler takes and returns, the store client, [toast] and [confirm]
      as effects on an explicit world.

    Modelling conventions.

    - A UUID is an opaque [string] (the client types it [string] and tests
      it for emptiness); a timestamp is a [Z].
    - [gen_random_uuid()], [now()] and the fate of the HTTP request are not
      decided by the program: each request consumes one [Env] from the
      world.
    - A client call never throws: it resolves to [{data, error}], here a
      sum.  Handlers run to completion, the un-awaited refetch included.
    - The managers are mounted for an authenticated user only (Index.tsx),
      for whom every row-level policy on these four tables is [true]. *)

From Stdlib Require Import List String Bool Arith ZArith.
From Stdlib Require Import Sorting.Permutation Sorting.Sorted.
Import ListNotations.
Open Scope string_scope.
Open Scope list_scope.

Definition uuid := string.
Definition timestamp := Z.

(** The collation that [ORDER BY name] compares with is a property of the
    database, not of the schema. *)
Class Collation := {
  name_leb : string -> string -> bool;
  name_leb_total : forall a b, name_leb a b = true \/ name_leb b a = true
}.

(** Byte-wise comparison (the "C" collation). *)
#[export] Instance C_collation : Collation :=
  {| name_leb := String.leb; name_leb_total := String.leb_total |}.

(** ** The schema *)

Module Db.

(** A row of [permissions] or of [roles]: the two tables have the same
    columns. *)
Record entity := {
  id : uuid;
  name : string;
  description : option string;
  created_at : timestamp;
  updated_at : timestamp
}.

(** A row of [role_permissions]; [rp_created_at] is column [created_at]. *)
Record role_permission := {
  role_id : uuid;
  permission_id : uuid;
  rp_created_at : timestamp
}.

(** A row of [user_roles], columns [user_id], [role_id], [created_at]. *)
Record user_role := {
  user_id : uuid;
  ur_role_id : uuid;
  ur_created_at : timestamp
}.

Record Store := {
  permissions : list entity;
  roles : list entity;
  role_permissions : list role_permission;
  user_roles : list user_role
}.

Definition empty : Store :=
  {| permissions := []; roles := []; role_permissions := []; user_roles := [] |}.

Inductive Error :=
| UniqueViolation (constraint : string)
| ForeignKeyViolation (constraint : string)
| FetchError.

Definition with_permissions (s : Store) (t : list entity) : Store :=
  {| permissions := t; roles := roles s;
     role_permissions := role_permissions s; user_roles := user_roles s |}.

Definition with_roles (s : Store) (t : list entity) : Store :=
  {| permissions := permissions s; roles := t;
     role_permissions := role_permissions s; user_roles := user_roles s |}.

Definition with_role_permissions (s : Store) (t : list role_permission) : Store :=
  {| permissions := permissions s; roles := roles s;
     role_permissions := t; user_roles := user_roles s |}.

Definition with_user_roles (s : Store) (t : list user_role) : Store :=
  {| permissions := permissions s; roles := roles s;
     role_permissions := role_permissions s; user_roles := t |}.

Definition has_id (x : uuid) (t : list entity) : bool :=
  existsb (fun r => id r =? x) t.

Definition has_name (n : string) (t : list entity) : bool :=
  existsb (fun r => name r =? n) t.

Definition has_pair (r p : uuid) (t : list role_permission) : bool :=
  existsb (fun x => (role_id x =? r) && (permission_id x =? p)) t.

(** *** [ORDER BY name] *)

Fixpoint insert_by_name `{Collation} (r : entity) (l : list entity) : list entity :=
  match l with
  | [] => [r]
  | x :: l' =>
      if name_leb (name r) (name x) then r :: l else x :: insert_by_name r l'
  end.

Definition order_by_name `{Collation} (l : list entity) : list entity :=
  fold_right insert_by_name [] l.

(** *** Statements on [permissions] and [roles]

    [INSERT INTO t (name, description)]: [id] and both timestamps take
    their defaults; [id] is the primary key and [name] is [UNIQUE]. *)
Definition insert_entity (pkey name_key : string) (new_id : uuid) (now : timestamp)
    (n : string) (d : option string) (t : list entity) : Error + list entity :=
  if has_id new_id t then inl (UniqueViolation pkey)
  else if has_name n t then inl (UniqueViolation name_key)
  else inr (t ++ [{| id := new_id; name := n; description := d;
                     created_at := now; updated_at := now |}]).

(** [UPDATE t SET name, description WHERE id = x]; the BEFORE UPDATE
    trigger sets [updated_at].  A row other than [x] already holding the
    new name violates [UNIQUE]; no matching row is not an error. *)
Definition update_entity (name_key : string) (now : timestamp)
    (x : uuid) (n : string) (d : option string) (t : list entity) : Error + list entity :=
  if negb (has_id x t) then inr t
  else if existsb (fun r => (name r =? n) && negb (id r =? x)) t
  then inl (UniqueViolation name_key)
  else inr (map (fun r =>
                   if id r =? x
                   then {| id := id r; name := n; description := d;
                           created_at := created_at r; updated_at := now |}
                   else r) t).

Definition delete_entity (x : uuid) (t : list entity) : list entity :=
  filter (fun r => negb (id r =? x)) t.

Definition insert_permission (new_id : uuid) (now : timestamp)
    (n : string) (d : option string) (s : Store) : Error + Store :=
  match insert_entity "permissions_pkey" "permissions_name_key" new_id now n d (permissions s) with
  | inl e => inl e
  | inr t => inr (with_permissions s t)
  end.

Definition update_permission (now : timestamp)
    (x : uuid) (n : string) (d : option string) (s : Store) : Error + Store :=
  match update_entity "permissions_name_key" now x n d (permissions s) with
  | inl e => inl e
  | inr t => inr (with_permissions s t)
  end.

(** [DELETE FROM permissions WHERE id = x], with
    [role_permissions.permission_id ... ON DELETE CASCADE]. *)
Definition delete_permission (x : uuid) (s : Store) : Store :=
  {| permissions := delete_entity x (permissions s);
     roles := roles s;
     role_permissions :=
       filter (fun rp => negb (permission_id rp =? x)) (role_permissions s);
     user_roles := user_roles s |}.

Definition insert_role (new_id : uuid) (now : timestamp)
    (n : string) (d : option string) (s : Store) : Error + Store :=
  match insert_entity "roles_pkey" "roles_name_key" new_id now n d (roles s) with
  | inl e => inl e
  | inr t => inr (with_roles s t)
  end.

Definition update_role (now : timestamp)
    (x : uuid) (n : string) (d : option string) (s : Store) : Error + Store :=
  match update_entity "roles_name_key" now x n d (roles s) with
  | inl e => inl e
  | inr t => inr (with_roles s t)
  end.

(** [DELETE FROM roles WHERE id = x], with [ON DELETE CASCADE] on
    [role_permissions.role_id] and on [user_roles.role_id]. *)
Definition delete_role (x : uuid) (s : Store) : Store :=
  {| permissions := permissions s;
     roles := delete_entity x (roles s);
     role_permissions :=
       filter (fun rp => negb (role_id rp =? x)) (role_permissions s);
     user_roles :=
       filter (fun ur => negb (ur_role_id ur =? x)) (user_roles s) |}.

(** *** Statements on [role_permissions] *)

Definition delete_role_permissions_of (r : uuid) (s : Store) : Store :=
  with_role_permissions s
    (filter (fun rp => negb (role_id rp =? r)) (role_permissions s)).

Definition delete_role_permission (r p : uuid) (s : Store) : Store :=
  with_role_permissions s
    (filter (fun rp => negb ((role_id rp =? r) && (permission_id rp =? p)))
            (role_permissions s)).

(** The primary key [(role_id, permission_id)], row after row: a pair is
    refused when the table, or an earlier row of the same statement,
    holds it. *)
Fixpoint add_pairs (now : timestamp) (rows : list (uuid * uuid))
    (t : list role_permission) : option (list role_permission) :=
  match rows with
  | [] => Some t
  | (r, p) :: rows' =>
      if has_pair r p t then None
      else add_pairs now rows'
             (t ++ [{| role_id := r; permission_id := p; rp_created_at := now |}])
  end.

(** The two foreign keys, checked when the statement ends. *)
Definition fk_violation (s : Store) (rows : list (uuid * uuid)) : option Error :=
  if negb (forallb (fun rp => has_id (fst rp) (roles s)) rows)
  then Some (ForeignKeyViolation "role_permissions_role_id_fkey")
  else if negb (forallb (fun rp => has_id (snd rp) (permissions s)) rows)
  then Some (ForeignKeyViolation "role_permissions_permission_id_fkey")
  else None.

(** A multi-row [INSERT INTO role_permissions (role_id, permission_id)]:
    one statement, all rows or none. *)
Definition insert_role_permissions (now : timestamp) (rows : list (uuid * uuid))
    (s : Store) : Error + Store :=
  match add_pairs now rows (role_permissions s) with
  | None => inl (UniqueViolation "role_permissions_pkey")
  | Some t =>
      match fk_violation s rows with
      | Some e => inl e
      | None => inr (with_role_permissions s t)
      end
  end.

(** *** Queries *)

Definition find_name (x : uuid) (t : list entity) : option string :=
  option_map name (find (fun r => id r =? x) t).

(** A row of
    [select role_id, permission_id, roles!inner(name), permissions!inner(name)]. *)
Record joined := {
  j_role_id : uuid;
  j_permission_id : uuid;
  j_roles_name : string;
  j_permissions_name : string
}.

(** Both embeddings are inner joins: a junction row without its parent
    row is not returned. *)
Fixpoint select_joined (s : Store) (t : list role_permission) : list joined :=
  match t with
  | [] => []
  | rp :: t' =>
      match find_name (role_id rp) (roles s), find_name (permission_id rp) (permissions s) with
      | Some rn, Some pn =>
          {| j_role_id := role_id rp; j_permission_id := permission_id rp;
             j_roles_name := rn; j_permissions_name := pn |} :: select_joined s t'
      | _, _ => select_joined s t'
      end
  end.

End Db.

(** ** The world the components act on *)

(** What becomes of one HTTP request: it is answered, it never reaches the
    store, or the store executes it and the answer is lost. *)
Inductive Net := Delivered | Dropped | ReplyLost.

(** What the environment decides for one request. *)
Record Env := {
  net : Net;
  random_uuid : uuid;   (* gen_random_uuid() *)
  now : timestamp       (* now() *)
}.

Inductive Table := Permissions | Roles.

(** The store calls the components make, as they are written. *)
Inductive Query :=
| SelectOrderName (t : Table)                      (* from(t).select('*').order('name') *)
| SelectRolePermissions                            (* the joined select of fetchData *)
| Insert (t : Table) (name description : string)   (* from(t).insert({name, description}) *)
| Update (t : Table) (name description : string) (eq_id : uuid)
| Delete (t : Table) (eq_id : uuid)
| DeleteRolePermissions (eq_role_id : uuid) (eq_permission_id : option uuid)
| InsertRolePermissions (insertData : list (uuid * uuid)).

Inductive Variant := default | destructive.

(** A toast description is a literal of the source or [error.message]. *)
Inductive Text :=
| Literal (s : string)
| message (error : Db.Error).

Record Toast := {
  title : string;
  description : Text;
  variant : Variant
}.

Inductive Event :=
| Requested (q : Query)
| Toasted (t : Toast)
| Confirmed (question : string) (answer : bool).

Record World := {
  db : Db.Store;
  env : list Env;          (* one per request to come *)
  answers : list bool;     (* the user's answers to the confirm() dialogs to come *)
  log : list Event         (* what happened so far, oldest first *)
}.

Definition M (A : Type) : Type := World -> A * World.

Definition ret {A} (a : A) : M A := fun w => (a, w).

Definition bind {A B} (c : M A) (k : A -> M B) : M B :=
  fun w => let (a, w') := c w in k a w'.

Notation "x <- c ;; k" := (bind c (fun x => k))
  (at level 61, c at next level, right associativity).
Notation "c ;; k" := (bind c (fun _ => k))
  (at level 61, right associativity).

Definition emit (e : Event) : M unit :=
  fun w => (tt, {| db := db w; env := env w; answers := answers w; log := log w ++ [e] |}).

Definition toast (t : Toast) : M unit := emit (Toasted t).

Definition success (d : string) : Toast :=
  {| title := "Success"; description := Literal d; variant := default |}.

Definition failure (d : Text) : Toast :=
  {| title := "Error"; description := d; variant := destructive |}.

(** [window.confirm]: no answer left stands for a dismissed dialog. *)
Definition confirm (question : string) : M bool :=
  fun w =>
    let a := match answers w with [] => false | a :: _ => a end in
    (a, {| db := db w; env := env w; answers := tl (answers w);
           log := log w ++ [Confirmed question a] |}).

(** One awaited store call.  [stmt] is the statement the request carries;
    a statement that fails leaves the store as it was. *)
Definition rpc {A} (q : Query) (stmt : Env -> Db.Store -> Db.Error + A * Db.Store)
  : M (Db.Error + A) :=
  fun w =>
    let sent s r :=
      (r, {| db := s; env := tl (env w); answers := answers w;
             log := log w ++ [Requested q] |}) in
    match env w with
    | [] => sent (db w) (inl Db.FetchError)
    | e :: _ =>
        match net e with
        | Dropped => sent (db w) (inl Db.FetchError)
        | Delivered =>
            match stmt e (db w) with
            | inl err => sent (db w) (inl err)
            | inr (a, s) => sent s (inr a)
            end
        | ReplyLost =>
            match stmt e (db w) with
            | inl _ => sent (db w) (inl Db.FetchError)
            | inr (_, s) => sent s (inl Db.FetchError)
            end
        end
    end.

Definition table (t : Table) (s : Db.Store) : list Db.entity :=
  match t with Permissions => Db.permissions s | Roles => Db.roles s end.

Definition only_store (r : Db.Error + Db.Store) : Db.Error + unit * Db.Store :=
  match r with inl e => inl e | inr s => inr (tt, s) end.

Section Calls.
Context `{Collation}.

Definition select_order_name (t : Table) : M (Db.Error + list Db.entity) :=
  rpc (SelectOrderName t) (fun _ s => inr (Db.order_by_name (table t s), s)).

Definition select_role_permissions : M (Db.Error + list Db.joined) :=
  rpc SelectRolePermissions
      (fun _ s => inr (Db.select_joined s (Db.role_permissions s), s)).
End Calls.

Definition insert (t : Table) (name description : string) : M (Db.Error + unit) :=
  rpc (Insert t name description)
      (fun e s =>
         only_store
           (match t with
            | Permissions => Db.insert_permission
            | Roles => Db.insert_role
            end (random_uuid e) (now e) name (Some description) s)).

Definition update (t : Table) (name description : string) (eq_id : uuid)
  : M (Db.Error + unit) :=
  rpc (Update t name description eq_id)
      (fun e s =>
         only_store
           (match t with
            | Permissions => Db.update_permission
            | Roles => Db.update_role
            end (now e) eq_id name (Some description) s)).

Definition delete (t : Table) (eq_id : uuid) : M (Db.Error + unit) :=
  rpc (Delete t eq_id)
      (fun _ s =>
         inr (tt, match t with
                  | Permissions => Db.delete_permission
                  | Roles => Db.delete_role
                  end eq_id s)).

Definition delete_role_permissions (eq_role_id : uuid) : M (Db.Error + unit) :=
  rpc (DeleteRolePermissions eq_role_id None)
      (fun _ s => inr (tt, Db.delete_role_permissions_of eq_role_id s)).

Definition delete_role_permission (eq_role_id eq_permission_id : uuid)
  : M (Db.Error + unit) :=
  rpc (DeleteRolePermissions eq_role_id (Some eq_permission_id))
      (fun _ s => inr (tt, Db.delete_role_permission eq_role_id eq_permission_id s)).

Definition insert_role_permissions (insertData : list (uuid * uuid))
  : M (Db.Error + unit) :=
  rpc (InsertRolePermissions insertData)
      (fun e s => only_store (Db.insert_role_permissions (now e) insertData s)).

(** ** PermissionsManager.tsx *)

Module PermissionsManager.
Section WithCollation.
Context `{Collation}.

Record State := {
  permissions : list Db.entity;
  loading : bool;
  isDialogOpen : bool;
  editingPermission : option Db.entity
}.

Definition initial : State :=
  {| permissions := []; loading := true; isDialogOpen := false;
     editingPermission := None |}.

Definition setPermissions (v : list Db.entity) (st : State) : State :=
  {| permissions := v; loading := loading st; isDialogOpen := isDialogOpen st;
     editingPermission := editingPermission st |}.

Definition setLoading (v : bool) (st : State) : State :=
  {| permissions := permissions st; loading := v; isDialogOpen := isDialogOpen st;
     editingPermission := editingPermission st |}.

Definition setIsDialogOpen (v : bool) (st : State) : State :=
  {| permissions := permissions st; loading := loading st; isDialogOpen := v;
     editingPermission := editingPermission st |}.

Definition setEditingPermission (v : option Db.entity) (st : State) : State :=
  {| permissions := permissions st; loading := loading st;
     isDialogOpen := isDialogOpen st; editingPermission := v |}.

Definition fetchPermissions (st : State) : M State :=
  r <- select_order_name Permissions ;;
  st' <- match r with
         | inr data => ret (setPermissions data st)
         | inl _ =>
             toast (failure (Literal "Failed to fetch permissions")) ;;
             ret st
         end ;;
  ret (setLoading false st').

Definition handleSubmit (name description : string) (st : State) : M State :=
  r <- match editingPermission st with
       | Some p =>
           r <- update Permissions name description (Db.id p) ;;
           match r with
           | inl error => ret (inl error)
           | inr _ =>
               toast (success "Permission updated successfully") ;;
               ret (inr tt)
           end
       | None =>
           r <- insert Permissions name description ;;
           match r with
           | inl error => ret (inl error)
           | inr _ =>
               toast (success "Permission created successfully") ;;
               ret (inr tt)
           end
       end ;;
  match r with
  | inr _ => fetchPermissions (setEditingPermission None (setIsDialogOpen false st))
  | inl error => toast (failure (message error)) ;; ret st
  end.

Definition handleDelete (id : uuid) (st : State) : M State :=
  ok <- confirm "Are you sure you want to delete this permission?" ;;
  if negb ok then ret st
  else
    r <- delete Permissions id ;;
    match r with
    | inr _ =>
        toast (success "Permission deleted successfully") ;;
        fetchPermissions st
    | inl error => toast (failure (message error)) ;; ret st
    end.

Definition openEditDialog (permission : Db.entity) (st : State) : M State :=
  ret (setIsDialogOpen true (setEditingPermission (Some permission) st)).

Definition openCreateDialog (st : State) : M State :=
  ret (setIsDialogOpen true (setEditingPermission None st)).

(** What can happen to the mounted component. *)
Inductive Action :=
| Mount
| Submit (name description : string)
| ClickDelete (id : uuid)
| ClickEdit (permission : Db.entity)
| ClickAdd.

Definition step (a : Action) (st : State) : M State :=
  match a with
  | Mount => fetchPermissions st
  | Submit n d => handleSubmit n d st
  | ClickDelete x => handleDelete x st
  | ClickEdit p => openEditDialog p st
  | ClickAdd => openCreateDialog st
  end.

Fixpoint run (l : list Action) (st : State) : M State :=
  match l with
  | [] => ret st
  | a :: l' => st' <- step a st ;; run l' st'
  end.

End WithCollation.
End PermissionsManager.

(** ** RolesManager.tsx *)

Module RolesManager.
Section WithCollation.
Context `{Collation}.

Record State := {
  roles : list Db.entity;
  loading : bool;
  isDialogOpen : bool;
  editingRole : option Db.entity
}.

Definition initial : State :=
  {| roles := []; loading := true; isDialogOpen := false; editingRole := None |}.

Definition setRoles (v : list Db.entity) (st : State) : State :=
  {| roles := v; loading := loading st; isDialogOpen := isDialogOpen st;
     editingRole := editingRole st |}.

Definition setLoading (v : bool) (st : State) : State :=
  {| roles := roles st; loading := v; isDialogOpen := isDialogOpen st;
     editingRole := editingRole st |}.

Definition setIsDialogOpen (v : bool) (st : State) : State :=
  {| roles := roles st; loading := loading st; isDialogOpen := v;
     editingRole := editingRole st |}.

Definition setEditingRole (v : option Db.entity) (st : State) : State :=
  {| roles := roles st; loading := loading st; isDialogOpen := isDialogOpen st;
     editingRole := v |}.

Definition fetchRoles (st : State) : M State :=
  r <- select_order_name Roles ;;
  st' <- match r with
         | inr data => ret (setRoles data st)
         | inl _ =>
             toast (failure (Literal "Failed to fetch roles")) ;;
             ret st
         end ;;
  ret (setLoading false st').

Definition handleSubmit (name description : string) (st : State) : M State :=
  r <- match editingRole st with
       | Some role =>
           r <- update Roles name description (Db.id role) ;;
           match r with
           | inl error => ret (inl error)
           | inr _ =>
               toast (success "Role updated successfully") ;;
               ret (inr tt)
           end
       | None =>
           r <- insert Roles name description ;;
           match r with
           | inl error => ret (inl error)
           | inr _ =>
               toast (success "Role created successfully") ;;
               ret (inr tt)
           end
       end ;;
  match r with
  | inr _ => fetchRoles (setEditingRole None (setIsDialogOpen false st))
  | inl error => toast (failure (message error)) ;; ret st
  end.

Definition handleDelete (id : uuid) (st : State) : M State :=
  ok <- confirm "Are you sure you want to delete this role?" ;;
  if negb ok then ret st
  else
    r <- delete Roles id ;;
    match r with
    | inr _ =>
        toast (success "Role deleted successfully") ;;
        fetchRoles st
    | inl error => toast (failure (message error)) ;; ret st
    end.

Definition openEditDialog (role : Db.entity) (st : State) : M State :=
  ret (setIsDialogOpen true (setEditingRole (Some role) st)).

Definition openCreateDialog (st : State) : M State :=
  ret (setIsDialogOpen true (setEditingRole None st)).

End WithCollation.
End RolesManager.

(** ** RolePermissionsManager.tsx *)

Module RolePermissionsManager.
Section WithCollation.
Context `{Collation}.

Record Named := { name : string }.

Record RolePermission := {
  role_id : string;
  permission_id : string;
  role : Named;
  permission : Named
}.

Record State := {
  roles : list Db.entity;
  permissions : list Db.entity;
  rolePermissions : list RolePermission;
  selectedRole : string;
  selectedPermissions : list string;
  loading : bool;
  isDialogOpen : bool
}.

Definition initial : State :=
  {| roles := []; permissions := []; rolePermissions := [];
     selectedRole := ""; selectedPermissions := [];
     loading := true; isDialogOpen := false |}.

Definition setRoles (v : list Db.entity) (st : State) : State :=
  {| roles := v; permissions := permissions st;
     rolePermissions := rolePermissions st; selectedRole := selectedRole st;
     selectedPermissions := selectedPermissions st; loading := loading st;
     isDialogOpen := isDialogOpen st |}.

Definition setPermissions (v : list Db.entity) (st : State) : State :=
  {| roles := roles st; permissions := v;
     rolePermissions := rolePermissions st; selectedRole := selectedRole st;
     selectedPermissions := selectedPermissions st; loading := loading st;
     isDialogOpen := isDialogOpen st |}.

Definition setRolePermissions (v : list RolePermission) (st : State) : State :=
  {| roles := roles st; permissions := permissions st;
     rolePermissions := v; selectedRole := selectedRole st;
     selectedPermissions := selectedPermissions st; loading := loading st;
     isDialogOpen := isDialogOpen st |}.

Definition setSelectedRole (v : string) (st : State) : State :=
  {| roles := roles st; permissions := permissions st;
     rolePermissions := rolePermissions st; selectedRole := v;
     selectedPermissions := selectedPermissions st; loading := loading st;
     isDialogOpen := isDialogOpen st |}.

Definition setSelectedPermissions (v : list string) (st : State) : State :=
  {| roles := roles st; permissions := permissions st;
     rolePermissions := rolePermissions st; selectedRole := selectedRole st;
     selectedPermissions := v; loading := loading st;
     isDialogOpen := isDialogOpen st |}.

Definition setLoading (v : bool) (st : State) : State :=
  {| roles := roles st; permissions := permissions st;
     rolePermissions := rolePermissions st; selectedRole := selectedRole st;
     selectedPermissions := selectedPermissions st; loading := v;
     isDialogOpen := isDialogOpen st |}.

Definition setIsDialogOpen (v : bool) (st : State) : State :=
  {| roles := roles st; permissions := permissions st;
     rolePermissions := rolePermissions st; selectedRole := selectedRole st;
     selectedPermissions := selectedPermissions st; loading := loading st;
     isDialogOpen := v |}.

(** The [map] of [fetchData] over the joined rows. *)
Definition of_joined (rp : Db.joined) : RolePermission :=
  {| role_id := Db.j_role_id rp;
     permission_id := Db.j_permission_id rp;
     role := {| name := Db.j_roles_name rp |};
     permission := {| name := Db.j_permissions_name rp |} |}.

(** [Promise.all] issues the three selects; their errors are looked at
    afterwards, in this order. *)
Definition fetchData (st : State) : M State :=
  rolesResult <- select_order_name Roles ;;
  permissionsResult <- select_order_name Permissions ;;
  rolePermissionsResult <- select_role_permissions ;;
  st' <- match rolesResult, permissionsResult, rolePermissionsResult with
         | inr rs, inr ps, inr rps =>
             ret (setRolePermissions (map of_joined rps)
                    (setPermissions ps (setRoles rs st)))
         | _, _, _ =>
             toast (failure (Literal "Failed to fetch data")) ;;
             ret st
         end ;;
  ret (setLoading false st').

Definition handleAssignPermissions (st : State) : M State :=
  if (selectedRole st =? "") || (List.length (selectedPermissions st) =? 0)%nat
  then
    toast (failure (Literal "Please select a role and at least one permission")) ;;
    ret st
  else
    (* the result of the delete is not looked at *)
    delete_role_permissions (selectedRole st) ;;
    let insertData :=
      map (fun permissionId => (selectedRole st, permissionId))
          (selectedPermissions st) in
    r <- insert_role_permissions insertData ;;
    match r with
    | inr _ =>
        toast (success "Permissions assigned successfully") ;;
        fetchData
          (setSelectedPermissions [] (setSelectedRole "" (setIsDialogOpen false st)))
    | inl error => toast (failure (message error)) ;; ret st
    end.

Definition handleRemovePermission (roleId permissionId : string) (st : State)
  : M State :=
  r <- delete_role_permission roleId permissionId ;;
  match r with
  | inr _ =>
      toast (success "Permission removed successfully") ;;
      fetchData st
  | inl error => toast (failure (message error)) ;; ret st
  end.

Definition getRolePermissions (roleId : string) (st : State) : list RolePermission :=
  filter (fun rp => role_id rp =? roleId) (rolePermissions st).

Definition openAssignDialog (st : State) : M State :=
  ret (setIsDialogOpen true (setSelectedPermissions [] (setSelectedRole "" st))).

Definition handleRoleSelect (roleId : string) (st : State) : M State :=
  let existingPermissions := map permission_id (getRolePermissions roleId st) in
  ret (setSelectedPermissions existingPermissions (setSelectedRole roleId st)).

Definition handlePermissionToggle (permissionId : string) (checked : bool)
    (st : State) : M State :=
  if checked
  then ret (setSelectedPermissions (selectedPermissions st ++ [permissionId]) st)
  else ret (setSelectedPermissions
              (filter (fun id => negb (id =? permissionId)) (selectedPermissions st))
              st).

(** What can happen to the mounted component. *)
Inductive Action :=
| Mount
| ClickAssignPermissions                       (* the dialog trigger *)
| RoleSelect (roleId : string)
| PermissionToggle (permissionId : string) (checked : bool)
| ClickAssign                                  (* the dialog's button *)
| ClickUnlink (roleId permissionId : string)
| OpenChange (open : bool).                    (* the dialog's onOpenChange *)

Definition step (a : Action) (st : State) : M State :=
  match a with
  | Mount => fetchData st
  | ClickAssignPermissions => openAssignDialog st
  | RoleSelect r => handleRoleSelect r st
  | PermissionToggle p c => handlePermissionToggle p c st
  | ClickAssign => handleAssignPermissions st
  | ClickUnlink r p => handleRemovePermission r p st
  | OpenChange o => ret (setIsDialogOpen o st)
  end.

Fixpoint run (l : list Action) (st : State) : M State :=
  match l with
  | [] => ret st
  | a :: l' => st' <- step a st ;; run l' st'
  end.

(** The contract's names for these: [commit] is the dialog's button
    pressed on a given selection, [permissionsFor] the derived view. *)
Definition commit (roleId : string) (permissionIds : list string) (st : State)
  : M State :=
  handleAssignPermissions (setSelectedPermissions permissionIds (setSelectedRole roleId st)).

Definition permissionsFor (roleId : string) (st : State) : list string :=
  map permission_id (getRolePermissions roleId st).

End WithCollation.
End RolePermissionsManager.

(** ** The seed rows of the schema, with identifiers of our choosing *)

Definition seeded (i n d : string) : Db.entity :=
  {| Db.id := i; Db.name := n; Db.description := Some d;
     Db.created_at := 0%Z; Db.updated_at := 0%Z |}.

Definition seed : Db.Store :=
  {| Db.permissions :=
       [ seeded "p1" "read:users" "Can view user information";
         seeded "p2" "write:users" "Can create and update users";
         seeded "p3" "delete:users" "Can delete users";
         seeded "p4" "read:roles" "Can view roles";
         seeded "p5" "write:roles" "Can create and update roles";
         seeded "p6" "delete:roles" "Can delete roles";
         seeded "p7" "read:permissions" "Can view permissions";
         seeded "p8" "write:permissions" "Can create and update permissions";
         seeded "p9" "delete:permissions" "Can delete permissions" ];
     Db.roles :=
       [ seeded "r1" "Administrator" "Full system access";
         seeded "r2" "Content Editor" "Can manage content";
         seeded "r3" "Support Agent" "Can view and assist users";
         seeded "r4" "Viewer" "Read-only access" ];
     Db.role_permissions := [];
     Db.user_roles := [] |}.

Definition world (s : Db.Store) (e : list Env) (a : list bool) : World :=
  {| db := s; env := e; answers := a; log := [] |}.

Definition ok (u : uuid) (t : timestamp) : Env :=
  {| net := Delivered; random_uuid := u; now := t |}.

Definition down : Env :=
  {| net := Dropped; random_uuid := ""; now := 0%Z |}.

(** ** Notions the statements use *)

(** The next [n] requests are answered. *)
Definition delivered_next (n : nat) (w : World) : bool :=
  (n <=? List.length (env w))%nat &&
  forallb (fun e => match net e with Delivered => true | _ => false end)
          (firstn n (env w)).

(** The world after one more event, nothing else changed. *)
Definition logged (e : list Event) (w : World) : World :=
  {| db := db w; env := env w; answers := answers w; log := log w ++ e |}.

(** Referential integrity of [role_permissions]: the two foreign keys. *)
Definition referential (s : Db.Store) : Prop :=
  forall rp, In rp (Db.role_permissions s) ->
    Db.has_id (Db.role_id rp) (Db.roles s) = true /\
    Db.has_id (Db.permission_id rp) (Db.permissions s) = true.

(** The permission ids the store holds for a role. *)
Definition persisted_for (r : uuid) (s : Db.Store) : list uuid :=
  map Db.permission_id
      (filter (fun rp => Db.role_id rp =? r) (Db.role_permissions s)).

Definition is_confirm (e : Event) : bool :=
  match e with Confirmed _ _ => true | _ => false end.

Definition is_failure (e : Event) : bool :=
  match e with
  | Toasted t => match variant t with destructive => true | default => false end
  | _ => false
  end.

(** The next request is executed by the store, answered or not. *)
Definition reaches_store (w : World) : bool :=
  match env w with
  | [] => false
  | e :: _ => match net e with Dropped => false | _ => true end
  end.

(** The component's junction list is what the joined select returns on
    store [s]. *)
Definition in_sync (st : RolePermissionsManager.State) (s : Db.Store) : Prop :=
  RolePermissionsManager.rolePermissions st =
  map RolePermissionsManager.of_joined (Db.select_joined s (Db.role_permissions s)).

(** A run of clicks on the checkboxes of the dialog. *)
Definition toggles (l : list (string * bool)) : list RolePermissionsManager.Action :=
  map (fun pc => RolePermissionsManager.PermissionToggle (fst pc) (snd pc)) l.

(** The row an insert statement run at [t] makes of a pair. *)
Definition new_row (r : uuid) (t : timestamp) (p : uuid) : Db.role_permission :=
  {| Db.role_id := r; Db.permission_id := p; Db.rp_created_at := t |}.

(** A computation that keeps the foreign keys of the store. *)
Definition keeps_referential {A} (c : M A) : Prop :=
  forall w, referential (db w) -> referential (db (snd (c w))).

(** The seed rows with permission [p1] granted to role [r1]. *)
Definition assigned : Db.Store :=
  Db.with_role_permissions seed [new_row "r1" 0%Z "p1"].

(** [n] requests that will be answered. *)
Definition answered (n : nat) : list Env := repeat (ok "" 1%Z) n.

(** Role [r1] holds [p1]; after the mount, [p2] is committed for it with
    the checkbox checked twice; then the data is fetched again. *)
Definition commit_of_repeated_id : RolePermissionsManager.State * World :=
  (st <- RolePermissionsManager.step RolePermissionsManager.Mount
           RolePermissionsManager.initial ;;
   st <- RolePermissionsManager.commit "r1" ["p2"; "p2"] st ;;
   RolePermissionsManager.step RolePermissionsManager.Mount st)
    (world assigned (answered 8) []).

(** Role [r1] holds [p1]; the row is unlinked, the refetch is lost, and
    the role is then selected in the dialog. *)
Definition select_after_lost_refetch : RolePermissionsManager.State * World :=
  RolePermissionsManager.run
    [ RolePermissionsManager.Mount;
      RolePermissionsManager.ClickUnlink "r1" "p1";
      RolePermissionsManager.ClickAssignPermissions;
      RolePermissionsManager.RoleSelect "r1" ]
    RolePermissionsManager.initial
    (world assigned (answered 4 ++ [down]) []).

(** Role [r2] holds nothing; [p1] is committed for it, the refetch is
    lost, and the role is selected again. *)
Definition select_after_lost_refetch_of_commit : RolePermissionsManager.State * World :=
  RolePermissionsManager.run
    [ RolePermissionsManager.Mount;
      RolePermissionsManager.ClickAssignPermissions;
      RolePermissionsManager.RoleSelect "r2";
      RolePermissionsManager.PermissionToggle "p1" true;
      RolePermissionsManager.ClickAssign;
      RolePermissionsManager.ClickAssignPermissions;
      RolePermissionsManager.RoleSelect "r2" ]
    RolePermissionsManager.initial
    (world seed (answered 5 ++ [down]) []).

(** Role [r1] holds [p1]; the component is mounted, and of the requests
    that follow the first one is lost. *)
Definition mounted_then_one_lost : RolePermissionsManager.State * World :=
  RolePermissionsManager.step RolePermissionsManager.Mount
    RolePermissionsManager.initial
    (world assigned (answered 3 ++ [down] ++ answered 4) []).

(** The seed rows with two grants and two role holders. *)
Definition staffed : Db.Store :=
  Db.with_user_roles
    (Db.with_role_permissions seed [new_row "r1" 0%Z "p1"; new_row "r2" 0%Z "p1"])
    [ {| Db.user_id := "u1"; Db.ur_role_id := "r1"; Db.ur_created_at := 0%Z |};
      {| Db.user_id := "u2"; Db.ur_role_id := "r2"; Db.ur_created_at := 0%Z |} ].

(** [a] is listed before [b] under [ORDER BY name]. *)
Definition by_name `{Collation} (a b : Db.entity) : Prop :=
  name_leb (Db.name a) (Db.name b) = true.

(** A create whose refetch is lost: mount, "Add Permission", submit. *)
Definition create_then_lost_refetch : PermissionsManager.State * World :=
  PermissionsManager.run
    [ PermissionsManager.Mount;
      PermissionsManager.ClickAdd;
      PermissionsManager.Submit "read:reports" "Can view reports" ]
    PermissionsManager.initial
    (world seed [ok "" 1%Z; ok "p10" 2%Z; down] []).

(** ** Notions of the further statements *)

(** What can happen to the mounted RolesManager. *)
Inductive RolesAction :=
| MountRoles
| SubmitRole (name description : string)
| ClickDeleteRole (id : uuid)
| ClickEditRole (role : Db.entity)
| ClickAddRole.

Definition roles_step `{Collation} (a : RolesAction) (st : RolesManager.State)
  : M RolesManager.State :=
  match a with
  | MountRoles => RolesManager.fetchRoles st
  | SubmitRole n d => RolesManager.handleSubmit n d st
  | ClickDeleteRole x => RolesManager.handleDelete x st
  | ClickEditRole r => RolesManager.openEditDialog r st
  | ClickAddRole => RolesManager.openCreateDialog st
  end.

Fixpoint roles_run `{Collation} (l : list RolesAction) (st : RolesManager.State)
  : M RolesManager.State :=
  match l with
  | [] => ret st
  | a :: l' => st' <- roles_step a st ;; roles_run l' st'
  end.

(** A computation that keeps a property of the store. *)
Definition preserves (P : Db.Store -> Prop) {A} (c : M A) : Prop :=
  forall w, P (db w) -> P (db (snd (c w))).

(** The key of a junction row. *)
Definition pair_of (rp : Db.role_permission) : uuid * uuid :=
  (Db.role_id rp, Db.permission_id rp).

Definition holder_of (ur : Db.user_role) : uuid * uuid :=
  (Db.user_id ur, Db.ur_role_id ur).

(** Every key of the schema that the four tables declare: the primary
    keys, [UNIQUE (name)], the foreign keys into [roles] and
    [permissions]. *)
Definition keys_hold (s : Db.Store) : Prop :=
  NoDup (map Db.id (Db.permissions s)) /\
  NoDup (map Db.name (Db.permissions s)) /\
  NoDup (map Db.id (Db.roles s)) /\
  NoDup (map Db.name (Db.roles s)) /\
  NoDup (map pair_of (Db.role_permissions s)) /\
  NoDup (map holder_of (Db.user_roles s)) /\
  referential s /\
  (forall ur, In ur (Db.user_roles s) ->
     Db.has_id (Db.ur_role_id ur) (Db.roles s) = true).

(** The row [INSERT INTO t (name, description)] makes. *)
Definition created (u : uuid) (t : timestamp) (n d : string) : Db.entity :=
  {| Db.id := u; Db.name := n; Db.description := Some d;
     Db.created_at := t; Db.updated_at := t |}.

(** What [UPDATE t SET name, description] and the trigger make of a row. *)
Definition renamed (t : timestamp) (n d : string) (q : Db.entity) : Db.entity :=
  {| Db.id := Db.id q; Db.name := n; Db.description := Some d;
     Db.created_at := Db.created_at q; Db.updated_at := t |}.

(** The events of a log that are requests. *)
Definition requests (l : list Event) : list Query :=
  flat_map (fun e => match e with Requested q => [q] | _ => [] end) l.

(** Index.tsx puts the three managers side by side, on one store. *)
Record Dashboard := {
  permissionsTab : PermissionsManager.State;
  rolesTab : RolesManager.State;
  assignmentsTab : RolePermissionsManager.State
}.

Inductive DashboardAction :=
| OnPermissions (a : PermissionsManager.Action)
| OnRoles (a : RolesAction)
| OnAssignments (a : RolePermissionsManager.Action).

Definition dashboard_step `{Collation} (a : DashboardAction) (d : Dashboard)
  : M Dashboard :=
  match a with
  | OnPermissions a =>
      st <- PermissionsManager.step a (permissionsTab d) ;;
      ret {| permissionsTab := st; rolesTab := rolesTab d;
             assignmentsTab := assignmentsTab d |}
  | OnRoles a =>
      st <- roles_step a (rolesTab d) ;;
      ret {| permissionsTab := permissionsTab d; rolesTab := st;
             assignmentsTab := assignmentsTab d |}
  | OnAssignments a =>
      st <- RolePermissionsManager.step a (assignmentsTab d) ;;
      ret {| permissionsTab := permissionsTab d; rolesTab := rolesTab d;
             assignmentsTab := st |}
  end.

Fixpoint dashboard_run `{Collation} (l : list DashboardAction) (d : Dashboard)
  : M Dashboard :=
  match l with
  | [] => ret d
  | a :: l' => d' <- dashboard_step a d ;; dashboard_run l' d'
  end.

Definition dashboard : Dashboard :=
  {| permissionsTab := PermissionsManager.initial;
     rolesTab := RolesManager.initial;
     assignmentsTab := RolePermissionsManager.initial |}.

(** No manager shows its "Loading ..." placeholder. *)
Definition loaded (d : Dashboard) : Prop :=
  PermissionsManager.loading (permissionsTab d) = false /\
  RolesManager.loading (rolesTab d) = false /\
  RolePermissionsManager.loading (assignmentsTab d) = false.

(** A computation whose result has a property, whatever the world. *)
Definition yields {A} (Q : A -> Prop) (c : M A) : Prop :=
  forall w, Q (fst (c w)).

(** The pending selection after a run of clicks on the checkboxes. *)
Fixpoint apply_toggles (ts : list (string * bool)) (sel : list string) : list string :=
  match ts with
  | [] => sel
  | (p, c) :: ts' =>
      apply_toggles ts'
        (if c then sel ++ [p] else filter (fun id => negb (id =? p)) sel)
  end.

(** * Properties *)

(** ** Requests *)

Lemma rpc_trace {A} (q : Query) (stmt : Env -> Db.Store -> Db.Error + A * Db.Store) w :
  log (snd (rpc q stmt w)) = log w ++ [Requested q] /\
  answers (snd (rpc q stmt w)) = answers w /\
  env (snd (rpc q stmt w)) = tl (env w).
Proof.
  unfold rpc.
  destruct (env w) as [|e rest]; simpl; auto.
  destruct (net e); simpl; auto;
    destruct (stmt e (db w)) as [err|[a s]]; simpl; auto.
Qed.

Lemma rpc_delivered {A} (q : Query) (stmt : Env -> Db.Store -> Db.Error + A * Db.Store)
    w e rest a s :
  env w = e :: rest -> net e = Delivered -> stmt e (db w) = inr (a, s) ->
  rpc q stmt w =
    (inr a, {| db := s; env := rest; answers := answers w;
               log := log w ++ [Requested q] |}).
Proof.
  intros He Hn Hs. unfold rpc. rewrite He, Hn, Hs. reflexivity.
Qed.

Lemma delivered_next_cons n e rest w :
  env w = e :: rest ->
  delivered_next (S n) w = true ->
  net e = Delivered /\
  forall w', env w' = rest -> delivered_next n w' = true.
Proof.
  unfold delivered_next. intros ->. simpl.
  intros Hd. apply andb_true_iff in Hd as [Hlen Hall].
  apply andb_true_iff in Hall as [Hnet Hall].
  split.
  - destruct (net e); congruence.
  - intros w' ->. apply andb_true_iff. split; assumption.
Qed.

Lemma delivered_next_env n w :
  delivered_next (S n) w = true -> exists e rest, env w = e :: rest.
Proof.
  unfold delivered_next. destruct (env w) as [|e rest]; simpl.
  - discriminate.
  - eauto.
Qed.

(** ** [ORDER BY name] sorts and loses nothing *)

Section OrderByName.
Context `{Collation}.

Lemma insert_by_name_perm r l : Permutation (r :: l) (Db.insert_by_name r l).
Proof.
  induction l as [|x l IH]; simpl.
  - apply Permutation_refl.
  - destruct (name_leb (Db.name r) (Db.name x)).
    + apply Permutation_refl.
    + eapply perm_trans; [apply perm_swap | apply perm_skip, IH].
Qed.

Lemma order_by_name_perm l : Permutation l (Db.order_by_name l).
Proof.
  induction l as [|x l IH]; simpl.
  - constructor.
  - eapply perm_trans; [apply perm_skip, IH | apply insert_by_name_perm].
Qed.

Lemma insert_by_name_hd a r l :
  by_name a r -> HdRel by_name a l -> HdRel by_name a (Db.insert_by_name r l).
Proof.
  intros Har Hal. destruct l as [|x l]; simpl.
  - constructor. exact Har.
  - destruct (name_leb (Db.name r) (Db.name x)).
    + constructor. exact Har.
    + constructor. inversion Hal; assumption.
Qed.

Lemma insert_by_name_sorted r l :
  Sorted by_name l -> Sorted by_name (Db.insert_by_name r l).
Proof.
  induction 1 as [|x l Hs IH Hhd]; simpl.
  - repeat constructor.
  - destruct (name_leb (Db.name r) (Db.name x)) eqn:E.
    + constructor; [constructor; assumption | constructor; exact E].
    + constructor; [exact IH |].
      apply insert_by_name_hd; [| exact Hhd].
      destruct (name_leb_total (Db.name r) (Db.name x)) as [Hrx|Hxr].
      * congruence.
      * exact Hxr.
Qed.

Lemma order_by_name_sorted l : Sorted by_name (Db.order_by_name l).
Proof.
  induction l as [|x l IH]; simpl.
  - constructor.
  - apply insert_by_name_sorted, IH.
Qed.

End OrderByName.

(** ** Names in a table *)

Lemma has_name_In n t :
  Db.has_name n t = true <-> exists p, In p t /\ Db.name p = n.
Proof.
  unfold Db.has_name. rewrite existsb_exists.
  split; intros (p & Hin & Hp); exists p; split; auto.
  - apply String.eqb_eq. exact Hp.
  - apply String.eqb_eq. exact Hp.
Qed.

Lemma insert_permission_same_name e n d s :
  Db.has_name n (Db.permissions s) = true ->
  exists c, Db.insert_permission (random_uuid e) (now e) n d s = inl (Db.UniqueViolation c).
Proof.
  intros Hn. unfold Db.insert_permission, Db.insert_entity.
  destruct (Db.has_id (random_uuid e) (Db.permissions s)).
  - eexists. reflexivity.
  - rewrite Hn. eexists. reflexivity.
Qed.

(** ** The Permission Manager *)

Section PermissionManager.
Context `{Collation}.
Import PermissionsManager.

Lemma fetchPermissions_delivered st w :
  delivered_next 1 w = true ->
  fetchPermissions st w =
    (setLoading false (setPermissions (Db.order_by_name (Db.permissions (db w))) st),
     {| db := db w; env := tl (env w); answers := answers w;
        log := log w ++ [Requested (SelectOrderName Permissions)] |}).
Proof.
  intros Hd.
  destruct (delivered_next_env _ _ Hd) as (e & rest & He).
  destruct (delivered_next_cons _ _ _ _ He Hd) as [Hn _].
  unfold fetchPermissions, select_order_name, bind.
  erewrite rpc_delivered by (try eassumption; reflexivity).
  rewrite He. reflexivity.
Qed.

(** C7. Whatever the store holds, a fetch that is answered puts in the
    component's list all the rows of [permissions], each once, in
    ascending order of [name]; the store is only read. *)
Theorem list_is_all_permissions_by_name st w :
  delivered_next 1 w = true ->
  Permutation (Db.permissions (db w)) (permissions (fst (fetchPermissions st w))) /\
  Sorted by_name (permissions (fst (fetchPermissions st w))) /\
  db (snd (fetchPermissions st w)) = db w.
Proof.
  intros Hd. rewrite (fetchPermissions_delivered st w Hd). simpl.
  split; [apply order_by_name_perm | split; [apply order_by_name_sorted | reflexivity]].
Qed.

(** C8, as amended. A fetch that fails shows one destructive toast and
    leaves the list as it was: empty when nothing had been fetched yet,
    the rows of the last answered fetch otherwise.  The store is not
    changed. *)
Theorem failed_fetch_keeps_list st w :
  delivered_next 1 w = false ->
  fetchPermissions st w =
    (setLoading false st,
     {| db := db w; env := tl (env w); answers := answers w;
        log := log w ++ [Requested (SelectOrderName Permissions);
                         Toasted (failure (Literal "Failed to fetch permissions"))] |}) /\
  permissions (fst (fetchPermissions st w)) = permissions st.
Proof.
  intros Hd.
  assert (E : fetchPermissions st w =
    (setLoading false st,
     {| db := db w; env := tl (env w); answers := answers w;
        log := log w ++ [Requested (SelectOrderName Permissions);
                         Toasted (failure (Literal "Failed to fetch permissions"))] |})).
  { unfold fetchPermissions, select_order_name, bind, rpc, toast, emit, ret.
    unfold delivered_next in Hd.
    destruct (env w) as [|e rest]; simpl in *.
    - rewrite <- app_assoc. reflexivity.
    - destruct (net e); simpl in *; try discriminate;
        rewrite <- app_assoc; reflexivity. }
  rewrite E. split; reflexivity.
Qed.

(** C4. When the store holds a permission named [n], submitting the
    create form with name [n] leaves the store and the component as they
    were and shows one destructive toast carrying the error of the
    insert, which is a unique-constraint violation whenever the store
    answered. *)
Theorem create_existing_name_fails n d st w :
  editingPermission st = None ->
  (exists p, In p (Db.permissions (db w)) /\ Db.name p = n) ->
  exists error,
    handleSubmit n d st w =
      (st, {| db := db w; env := tl (env w); answers := answers w;
              log := log w ++ [Requested (Insert Permissions n d);
                               Toasted (failure (message error))] |}) /\
    (delivered_next 1 w = true -> exists c, error = Db.UniqueViolation c).
Proof.
  intros Hedit Hex. apply has_name_In in Hex.
  unfold handleSubmit. rewrite Hedit.
  unfold bind at 1. unfold bind at 1. unfold insert.
  set (stmt := fun (e : Env) (s : Db.Store) => only_store _).
  destruct (env w) as [|e0 rest0] eqn:He.
  - exists Db.FetchError. unfold rpc, toast, emit, ret, bind, delivered_next.
    rewrite He. simpl. rewrite <- app_assoc. split; [reflexivity | intros Hf; discriminate Hf].
  - destruct (insert_permission_same_name e0 n (Some d) (db w) Hex) as (c & Hc).
    assert (Hs : stmt e0 (db w) = inl (Db.UniqueViolation c)).
    { unfold stmt. rewrite Hc. reflexivity. }
    unfold rpc, toast, emit, ret, bind, delivered_next. rewrite He, Hs. simpl.
    destruct (net e0); simpl; rewrite <- app_assoc; simpl.
    + exists (Db.UniqueViolation c). split; [reflexivity | eauto].
    + exists Db.FetchError. split; [reflexivity | intros Hf; discriminate Hf].
    + exists Db.FetchError. split; [reflexivity | intros Hf; discriminate Hf].
Qed.

End PermissionManager.

(** ** Reading does not write *)

Lemma rpc_read_only {A} (q : Query) (f : Db.Store -> A) w :
  db (snd (rpc q (fun _ s => inr (f s, s)) w)) = db w.
Proof.
  unfold rpc. destruct (env w) as [|e rest]; simpl; auto.
  destruct (net e); reflexivity.
Qed.

(** ** Deleting rows by key *)

Lemma delete_role_role_permissions r s rp :
  In rp (Db.role_permissions (Db.delete_role r s)) <->
  In rp (Db.role_permissions s) /\ Db.role_id rp <> r.
Proof.
  simpl. rewrite filter_In, negb_true_iff, String.eqb_neq. reflexivity.
Qed.

Lemma delete_role_user_roles r s ur :
  In ur (Db.user_roles (Db.delete_role r s)) <->
  In ur (Db.user_roles s) /\ Db.ur_role_id ur <> r.
Proof.
  simpl. rewrite filter_In, negb_true_iff, String.eqb_neq. reflexivity.
Qed.

Lemma delete_role_roles r s x :
  In x (Db.roles (Db.delete_role r s)) <-> In x (Db.roles s) /\ Db.id x <> r.
Proof.
  simpl. unfold Db.delete_entity.
  rewrite filter_In, negb_true_iff, String.eqb_neq. reflexivity.
Qed.

(** ** The Role Manager *)

Section RoleManager.
Context `{Collation}.
Import RolesManager.

Lemma fetchRoles_db st w : db (snd (fetchRoles st w)) = db w.
Proof.
  unfold fetchRoles, bind, select_order_name.
  pose proof (rpc_read_only (SelectOrderName Roles)
                (fun s => Db.order_by_name (table Roles s)) w) as Hro.
  destruct (rpc _ _ w) as [[err|data] w1]; simpl in *; exact Hro.
Qed.

Lemma handleDelete_executed r st w :
  hd false (answers w) = true -> reaches_store w = true ->
  db (snd (handleDelete r st w)) = Db.delete_role r (db w).
Proof.
  intros Ha Hr. unfold handleDelete, bind at 1, confirm.
  destruct (answers w) as [|a rest]; simpl in Ha; [discriminate Ha | subst a].
  simpl. unfold reaches_store in Hr. unfold bind at 1, delete, rpc. simpl.
  destruct (env w) as [|e rest']; [discriminate Hr |].
  destruct (net e); [ | discriminate Hr | ]; simpl.
  - unfold bind, toast, emit. simpl. rewrite fetchRoles_db. reflexivity.
  - reflexivity.
Qed.

(** C5. Once the delete of role [r] is confirmed and executed by the
    store, the rows of [role_permissions] and of [user_roles] that are
    left are exactly the former rows whose [role_id] is not [r], the
    roles left are the former ones other than [r], and [permissions] is
    untouched. *)
Theorem delete_role_cascades r st w :
  hd false (answers w) = true -> reaches_store w = true ->
  let s' := db (snd (handleDelete r st w)) in
  (forall rp, In rp (Db.role_permissions s') <->
              In rp (Db.role_permissions (db w)) /\ Db.role_id rp <> r) /\
  (forall ur, In ur (Db.user_roles s') <->
              In ur (Db.user_roles (db w)) /\ Db.ur_role_id ur <> r) /\
  (forall x, In x (Db.roles s') <-> In x (Db.roles (db w)) /\ Db.id x <> r) /\
  Db.permissions s' = Db.permissions (db w).
Proof.
  intros Ha Hr s'. subst s'. rewrite (handleDelete_executed r st w Ha Hr).
  split; [| split; [| split]].
  - intros rp. apply delete_role_role_permissions.
  - intros ur. apply delete_role_user_roles.
  - intros x. apply delete_role_roles.
  - reflexivity.
Qed.

End RoleManager.

(** ** Keys of the junction table *)

Lemma has_id_In x t :
  Db.has_id x t = true <-> exists r, In r t /\ Db.id r = x.
Proof.
  unfold Db.has_id. rewrite existsb_exists.
  split; intros (r & Hin & Hr); exists r; split; auto; apply String.eqb_eq; exact Hr.
Qed.

Lemma find_name_has_id x t :
  Db.has_id x t = true -> exists n, Db.find_name x t = Some n.
Proof.
  unfold Db.has_id, Db.find_name. induction t as [|r t IH]; simpl.
  - discriminate.
  - destruct (Db.id r =? x); simpl.
    + eauto.
    + exact IH.
Qed.

Lemma has_pair_In r p t :
  Db.has_pair r p t = true <->
  exists x, In x t /\ Db.role_id x = r /\ Db.permission_id x = p.
Proof.
  unfold Db.has_pair. rewrite existsb_exists.
  split; intros (x & Hin & Hx); exists x; (split; [exact Hin |]).
  - apply andb_true_iff in Hx as [Hr Hp].
    split; apply String.eqb_eq; assumption.
  - destruct Hx as [Hr Hp]. apply andb_true_iff.
    split; apply String.eqb_eq; assumption.
Qed.

Lemma has_pair_after_delete r p t :
  Db.has_pair r p (filter (fun rp => negb (Db.role_id rp =? r)) t) = false.
Proof.
  destruct (Db.has_pair r p _) eqn:E; [| reflexivity].
  apply has_pair_In in E as (x & Hin & Hr & _).
  apply filter_In in Hin as [_ Hne].
  apply negb_true_iff, String.eqb_neq in Hne. contradiction.
Qed.

Lemma has_pair_snoc r p t x :
  Db.has_pair r p (t ++ [x]) =
  Db.has_pair r p t || ((Db.role_id x =? r) && (Db.permission_id x =? p)).
Proof.
  unfold Db.has_pair. rewrite existsb_app. simpl. rewrite orb_false_r. reflexivity.
Qed.

(** Distinct permissions for one role, none of them granted yet: every
    row goes in, in order. *)
Lemma add_pairs_fresh now r S : forall t,
  NoDup S ->
  (forall p, In p S -> Db.has_pair r p t = false) ->
  Db.add_pairs now (map (fun p => (r, p)) S) t = Some (t ++ map (new_row r now) S).
Proof.
  induction S as [|p S IH]; intros t Hnd Hfresh; simpl.
  - rewrite app_nil_r. reflexivity.
  - rewrite (Hfresh p (or_introl eq_refl)).
    inversion Hnd as [|? ? Hp HS]; subst.
    fold (new_row r now p). rewrite IH.
    + rewrite <- app_assoc. reflexivity.
    + exact HS.
    + intros q Hq. rewrite has_pair_snoc, (Hfresh q (or_intror Hq)). simpl.
      rewrite String.eqb_refl. simpl.
      apply String.eqb_neq. intros ->. contradiction.
Qed.

(** A pair that the statement holds twice is refused, whatever the table. *)
Lemma add_pairs_twice now r p l1 l2 l3 : forall t,
  Db.add_pairs now (l1 ++ (r, p) :: l2 ++ (r, p) :: l3) t = None.
Proof.
  assert (Hlater : forall u,
            Db.has_pair r p u = true -> Db.add_pairs now (l2 ++ (r, p) :: l3) u = None).
  { induction l2 as [|[r2 p2] l2 IH]; intros u Hu; simpl.
    - rewrite Hu. reflexivity.
    - destruct (Db.has_pair r2 p2 u); [reflexivity |].
      apply IH. rewrite has_pair_snoc, Hu. reflexivity. }
  induction l1 as [|[r1 p1] l1 IH]; intros t; simpl.
  - destruct (Db.has_pair r p t); [reflexivity |].
    apply Hlater. rewrite has_pair_snoc. simpl.
    rewrite !String.eqb_refl. apply orb_true_r.
  - destruct (Db.has_pair r1 p1 t); [reflexivity | apply IH].
Qed.

Lemma repeated_pair_is_refused now r p l1 l2 l3 s :
  Db.insert_role_permissions now (l1 ++ (r, p) :: l2 ++ (r, p) :: l3) s =
    inl (Db.UniqueViolation "role_permissions_pkey").
Proof.
  unfold Db.insert_role_permissions. rewrite add_pairs_twice. reflexivity.
Qed.

Lemma add_pairs_rows now rows : forall t t',
  Db.add_pairs now rows t = Some t' ->
  forall x, In x t' -> In x t \/ In (Db.role_id x, Db.permission_id x) rows.
Proof.
  induction rows as [|[r p] rows IH]; intros t t' Hadd x Hx; simpl in *.
  - inversion Hadd; subst. left. exact Hx.
  - destruct (Db.has_pair r p t); [discriminate Hadd |].
    destruct (IH _ _ Hadd x Hx) as [Hin | Hin].
    + apply in_app_or in Hin as [Hin | [<- | []]].
      * left. exact Hin.
      * right. left. reflexivity.
    + right. right. exact Hin.
Qed.

Lemma fk_checked s rows :
  Db.fk_violation s rows = None ->
  forall r p, In (r, p) rows ->
    Db.has_id r (Db.roles s) = true /\ Db.has_id p (Db.permissions s) = true.
Proof.
  unfold Db.fk_violation. intros Hfk r p Hin.
  destruct (forallb (fun rp => Db.has_id (fst rp) (Db.roles s)) rows) eqn:E1;
    simpl in Hfk; [| discriminate Hfk].
  destruct (forallb (fun rp => Db.has_id (snd rp) (Db.permissions s)) rows) eqn:E2;
    simpl in Hfk; [| discriminate Hfk].
  rewrite forallb_forall in E1, E2.
  split; [apply (E1 _ Hin) | apply (E2 _ Hin)].
Qed.

Lemma fk_satisfied s r S :
  Db.has_id r (Db.roles s) = true ->
  (forall p, In p S -> Db.has_id p (Db.permissions s) = true) ->
  Db.fk_violation s (map (fun p => (r, p)) S) = None.
Proof.
  intros Hr HS. unfold Db.fk_violation.
  replace (forallb (fun rp => Db.has_id (fst rp) (Db.roles s)) (map (fun p => (r, p)) S))
    with true.
  - replace (forallb (fun rp => Db.has_id (snd rp) (Db.permissions s))
               (map (fun p => (r, p)) S)) with true; [reflexivity |].
    symmetry. apply forallb_forall. intros [r' p'] Hin.
    apply in_map_iff in Hin as (q & Hq & Hin). inversion Hq; subst. simpl. auto.
  - symmetry. apply forallb_forall. intros [r' p'] Hin.
    apply in_map_iff in Hin as (q & Hq & Hin). inversion Hq; subst. exact Hr.
Qed.

(** The joined select, read for one role: when the rows of that role have
    both parents, the permission ids it shows are the stored ones. *)
Lemma joined_for s r t :
  (forall rp, In rp t -> Db.role_id rp = r ->
     Db.has_id (Db.role_id rp) (Db.roles s) = true /\
     Db.has_id (Db.permission_id rp) (Db.permissions s) = true) ->
  map RolePermissionsManager.permission_id
      (filter (fun x => RolePermissionsManager.role_id x =? r)
              (map RolePermissionsManager.of_joined (Db.select_joined s t))) =
  map Db.permission_id (filter (fun rp => Db.role_id rp =? r) t).
Proof.
  induction t as [|rp t IH]; intros Hpar; simpl.
  - reflexivity.
  - assert (IH' := IH (fun x Hx => Hpar x (or_intror Hx))).
    destruct (Db.role_id rp =? r) eqn:E.
    + apply String.eqb_eq in E.
      destruct (Hpar rp (or_introl eq_refl) E) as [Hr Hp].
      destruct (find_name_has_id _ _ Hr) as (rn & ->).
      destruct (find_name_has_id _ _ Hp) as (pn & ->).
      simpl. apply String.eqb_eq in E. rewrite E. simpl. f_equal. exact IH'.
    + destruct (Db.find_name (Db.role_id rp) (Db.roles s));
        [destruct (Db.find_name (Db.permission_id rp) (Db.permissions s)) |];
        simpl; rewrite ?E; exact IH'.
Qed.

(** ** The foreign keys hold in every reachable store *)

Lemma insert_entity_ids pk nk u t n d tbl tbl' :
  Db.insert_entity pk nk u t n d tbl = inr tbl' ->
  forall x, Db.has_id x tbl = true -> Db.has_id x tbl' = true.
Proof.
  unfold Db.insert_entity. intros Hins x Hx.
  destruct (Db.has_id u tbl); [discriminate Hins |].
  destruct (Db.has_name n tbl); [discriminate Hins |].
  inversion Hins; subst. unfold Db.has_id in *.
  rewrite existsb_app, Hx. reflexivity.
Qed.

Lemma update_entity_ids nk t y n d tbl tbl' :
  Db.update_entity nk t y n d tbl = inr tbl' ->
  forall x, Db.has_id x tbl' = Db.has_id x tbl.
Proof.
  unfold Db.update_entity. intros Hupd x.
  destruct (negb (Db.has_id y tbl)); [inversion Hupd; reflexivity |].
  destruct (existsb _ tbl); [discriminate Hupd |].
  inversion Hupd; subst. unfold Db.has_id.
  clear Hupd. induction tbl as [|r tbl IH]; simpl; [reflexivity |].
  destruct (Db.id r =? y); simpl; rewrite IH; reflexivity.
Qed.

Lemma delete_entity_ids y x tbl :
  Db.has_id x tbl = true -> x <> y -> Db.has_id x (Db.delete_entity y tbl) = true.
Proof.
  intros Hx Hne. apply has_id_In in Hx as (r & Hin & Hr).
  apply has_id_In. exists r. split; [| exact Hr].
  apply filter_In. split; [exact Hin |].
  apply negb_true_iff, String.eqb_neq. congruence.
Qed.

Lemma referential_mono s s' :
  referential s ->
  (forall x, Db.has_id x (Db.roles s) = true -> Db.has_id x (Db.roles s') = true) ->
  (forall x, Db.has_id x (Db.permissions s) = true ->
             Db.has_id x (Db.permissions s') = true) ->
  (forall rp, In rp (Db.role_permissions s') -> In rp (Db.role_permissions s)) ->
  referential s'.
Proof.
  intros Href Hr Hp Hrows rp Hin.
  destruct (Href rp (Hrows rp Hin)). split; auto.
Qed.

Lemma referential_insert_permission u t n d s s' :
  referential s -> Db.insert_permission u t n d s = inr s' -> referential s'.
Proof.
  unfold Db.insert_permission. intros Href Hins.
  destruct (Db.insert_entity _ _ u t n d (Db.permissions s)) as [|tbl] eqn:E;
    inversion Hins; subst.
  apply (referential_mono s); simpl; auto.
  apply (insert_entity_ids _ _ _ _ _ _ _ _ E).
Qed.

Lemma referential_insert_role u t n d s s' :
  referential s -> Db.insert_role u t n d s = inr s' -> referential s'.
Proof.
  unfold Db.insert_role. intros Href Hins.
  destruct (Db.insert_entity _ _ u t n d (Db.roles s)) as [|tbl] eqn:E;
    inversion Hins; subst.
  apply (referential_mono s); simpl; auto.
  apply (insert_entity_ids _ _ _ _ _ _ _ _ E).
Qed.

Lemma referential_update_permission t x n d s s' :
  referential s -> Db.update_permission t x n d s = inr s' -> referential s'.
Proof.
  unfold Db.update_permission. intros Href Hupd.
  destruct (Db.update_entity _ t x n d (Db.permissions s)) as [|tbl] eqn:E;
    inversion Hupd; subst.
  apply (referential_mono s); simpl; auto.
  intros y Hy. rewrite (update_entity_ids _ _ _ _ _ _ _ E). exact Hy.
Qed.

Lemma referential_update_role t x n d s s' :
  referential s -> Db.update_role t x n d s = inr s' -> referential s'.
Proof.
  unfold Db.update_role. intros Href Hupd.
  destruct (Db.update_entity _ t x n d (Db.roles s)) as [|tbl] eqn:E;
    inversion Hupd; subst.
  apply (referential_mono s); simpl; auto.
  intros y Hy. rewrite (update_entity_ids _ _ _ _ _ _ _ E). exact Hy.
Qed.

(** The cascades are what keeps the keys when a parent row goes. *)
Lemma referential_delete_permission x s :
  referential s -> referential (Db.delete_permission x s).
Proof.
  intros Href rp Hin. simpl in *.
  apply filter_In in Hin as [Hin Hne].
  apply negb_true_iff, String.eqb_neq in Hne.
  destruct (Href rp Hin) as [Hr Hp]. split; [exact Hr |].
  apply delete_entity_ids; assumption.
Qed.

Lemma referential_delete_role x s :
  referential s -> referential (Db.delete_role x s).
Proof.
  intros Href rp Hin. simpl in *.
  apply filter_In in Hin as [Hin Hne].
  apply negb_true_iff, String.eqb_neq in Hne.
  destruct (Href rp Hin) as [Hr Hp]. split; [| exact Hp].
  apply delete_entity_ids; assumption.
Qed.

Lemma referential_delete_rows f s :
  referential s ->
  referential (Db.with_role_permissions s (filter f (Db.role_permissions s))).
Proof.
  intros Href. apply (referential_mono s); simpl; auto.
  intros rp Hin. apply filter_In in Hin. tauto.
Qed.

Lemma referential_insert_role_permissions t rows s s' :
  referential s -> Db.insert_role_permissions t rows s = inr s' -> referential s'.
Proof.
  unfold Db.insert_role_permissions. intros Href Hins.
  destruct (Db.add_pairs t rows (Db.role_permissions s)) as [tbl|] eqn:E;
    [| discriminate Hins].
  destruct (Db.fk_violation s rows) eqn:F; inversion Hins; subst.
  intros rp Hin. simpl in *.
  destruct (add_pairs_rows _ _ _ _ E rp Hin) as [Hold | Hnew].
  - apply Href, Hold.
  - apply (fk_checked _ _ F _ _ Hnew).
Qed.

Lemma seed_referential : referential seed.
Proof. intros rp []. Qed.

Lemma keeps_ret {A} (a : A) : keeps_referential (ret a).
Proof. intros w Hw. exact Hw. Qed.

Lemma keeps_bind {A B} (c : M A) (k : A -> M B) :
  keeps_referential c -> (forall a, keeps_referential (k a)) ->
  keeps_referential (bind c k).
Proof.
  intros Hc Hk w Hw. unfold bind.
  specialize (Hc w Hw). destruct (c w) as [a w']. apply Hk, Hc.
Qed.

Lemma keeps_toast t : keeps_referential (toast t).
Proof. intros w Hw. exact Hw. Qed.

Lemma keeps_confirm q : keeps_referential (confirm q).
Proof. intros w Hw. exact Hw. Qed.

Lemma keeps_rpc {A} q (stmt : Env -> Db.Store -> Db.Error + A * Db.Store) :
  (forall e s a s', referential s -> stmt e s = inr (a, s') -> referential s') ->
  keeps_referential (rpc q stmt).
Proof.
  intros Hstmt w Hw. unfold rpc.
  destruct (env w) as [|e rest]; simpl; [exact Hw |].
  destruct (net e); simpl; [| exact Hw |];
    destruct (stmt e (db w)) as [err|[a s']] eqn:E; simpl;
    try exact Hw; apply (Hstmt _ _ _ _ Hw E).
Qed.

Lemma keeps_only_store (f : Env -> Db.Store -> Db.Error + Db.Store) q :
  (forall e s s', referential s -> f e s = inr s' -> referential s') ->
  keeps_referential (rpc q (fun e s => only_store (f e s))).
Proof.
  intros Hf. apply keeps_rpc. intros e s a s' Hs Hstmt.
  unfold only_store in Hstmt. destruct (f e s) as [|s0] eqn:E; inversion Hstmt; subst.
  apply (Hf _ _ _ Hs E).
Qed.

Lemma keeps_select_order_name `{Collation} t :
  keeps_referential (select_order_name t).
Proof.
  apply keeps_rpc. intros e s a s' Hs Hstmt. inversion Hstmt; subst. exact Hs.
Qed.

Lemma keeps_select_role_permissions : keeps_referential select_role_permissions.
Proof.
  apply keeps_rpc. intros e s a s' Hs Hstmt. inversion Hstmt; subst. exact Hs.
Qed.

Lemma keeps_insert t n d : keeps_referential (insert t n d).
Proof.
  unfold insert. apply keeps_only_store. intros e s s' Hs.
  destruct t; [apply referential_insert_permission | apply referential_insert_role];
    exact Hs.
Qed.

Lemma keeps_update t n d x : keeps_referential (update t n d x).
Proof.
  unfold update. apply keeps_only_store. intros e s s' Hs.
  destruct t; [apply referential_update_permission | apply referential_update_role];
    exact Hs.
Qed.

Lemma keeps_delete t x : keeps_referential (delete t x).
Proof.
  apply keeps_rpc. intros e s a s' Hs Hstmt. inversion Hstmt; subst.
  destruct t; [apply referential_delete_permission | apply referential_delete_role];
    exact Hs.
Qed.

Lemma keeps_delete_role_permissions r : keeps_referential (delete_role_permissions r).
Proof.
  apply keeps_rpc. intros e s a s' Hs Hstmt. inversion Hstmt; subst.
  apply referential_delete_rows, Hs.
Qed.

Lemma keeps_delete_role_permission r p : keeps_referential (delete_role_permission r p).
Proof.
  apply keeps_rpc. intros e s a s' Hs Hstmt. inversion Hstmt; subst.
  apply referential_delete_rows, Hs.
Qed.

Lemma keeps_insert_role_permissions rows :
  keeps_referential (insert_role_permissions rows).
Proof.
  unfold insert_role_permissions. apply keeps_only_store. intros e s s' Hs.
  apply referential_insert_role_permissions, Hs.
Qed.

Create HintDb keeps.

#[local] Hint Resolve keeps_ret keeps_toast keeps_confirm keeps_select_order_name
  keeps_select_role_permissions keeps_insert keeps_update keeps_delete
  keeps_delete_role_permissions keeps_delete_role_permission
  keeps_insert_role_permissions : keeps.

(** Splits a handler along its binds and its case distinctions. *)
Ltac keeps :=
  repeat first
    [ progress auto with keeps
    | apply keeps_bind; [| intros ?]
    | match goal with
      | |- keeps_referential (match ?x with _ => _ end) => destruct x
      end ].

Lemma permissions_step_keeps `{Collation} a st :
  keeps_referential (PermissionsManager.step a st).
Proof.
  destruct a; simpl;
    unfold PermissionsManager.handleSubmit, PermissionsManager.handleDelete,
      PermissionsManager.fetchPermissions, PermissionsManager.openEditDialog,
      PermissionsManager.openCreateDialog; keeps.
Qed.

Lemma roles_handlers_keep `{Collation} st :
  keeps_referential (RolesManager.fetchRoles st) /\
  (forall n d, keeps_referential (RolesManager.handleSubmit n d st)) /\
  (forall x, keeps_referential (RolesManager.handleDelete x st)).
Proof.
  split; [| split]; [| intros n d | intros x];
    unfold RolesManager.handleSubmit, RolesManager.handleDelete,
      RolesManager.fetchRoles; keeps.
Qed.

Lemma assignments_step_keeps `{Collation} a st :
  keeps_referential (RolePermissionsManager.step a st).
Proof.
  destruct a; simpl;
    unfold RolePermissionsManager.handleAssignPermissions,
      RolePermissionsManager.handleRemovePermission,
      RolePermissionsManager.fetchData,
      RolePermissionsManager.openAssignDialog,
      RolePermissionsManager.handleRoleSelect,
      RolePermissionsManager.handlePermissionToggle; keeps.
Qed.

Lemma assignments_run_keeps `{Collation} l : forall st,
  keeps_referential (RolePermissionsManager.run l st).
Proof.
  induction l as [|a l IH]; intros st; simpl.
  - apply keeps_ret.
  - apply keeps_bind; [apply assignments_step_keeps | intros st'; apply IH].
Qed.

(** Whatever the administrator does in the assignment screen and whatever
    becomes of the requests, the store reached from the seed rows has no
    dangling junction row. *)
Lemma reachable_store_is_referential `{Collation} l e a :
  referential
    (db (snd (RolePermissionsManager.run l RolePermissionsManager.initial (world seed e a)))).
Proof.
  apply assignments_run_keeps. exact seed_referential.
Qed.

(** ** The Assignment Manager *)

Section AssignmentManager.
Context `{Collation}.
Import RolePermissionsManager.

(** *** The composite fetch *)

Lemma fetchData_spec st w :
  fetchData st w =
    (setLoading false
       (if delivered_next 3 w
        then setRolePermissions
               (map of_joined (Db.select_joined (db w) (Db.role_permissions (db w))))
               (setPermissions (Db.order_by_name (Db.permissions (db w)))
                  (setRoles (Db.order_by_name (Db.roles (db w))) st))
        else st),
     {| db := db w; env := tl (tl (tl (env w))); answers := answers w;
        log := log w ++
               [Requested (SelectOrderName Roles);
                Requested (SelectOrderName Permissions);
                Requested SelectRolePermissions] ++
               (if delivered_next 3 w then []
                else [Toasted (failure (Literal "Failed to fetch data"))]) |}).
Proof.
  unfold fetchData, select_order_name, select_role_permissions, bind, rpc,
    toast, emit, ret, delivered_next.
  destruct (env w) as [|e1 [|e2 [|e3 rest]]]; simpl;
    try destruct (net e1); simpl;
    try destruct (net e2); simpl;
    try destruct (net e3); simpl;
    rewrite <- ?app_assoc; reflexivity.
Qed.

(** *** C2: the guard of [commit] *)

(** C2. With an empty role or an empty selection, [commit] makes no
    store call: the world only gains the validation toast (same store,
    no request consumed), and the component keeps the role and the
    selection it was called on. *)
Theorem commit_rejected_before_any_store_call roleId permissionIds st w :
  roleId = "" \/ permissionIds = [] ->
  commit roleId permissionIds st w =
    (setSelectedPermissions permissionIds (setSelectedRole roleId st),
     logged [Toasted (failure
               (Literal "Please select a role and at least one permission"))] w).
Proof.
  intros Hbad. unfold commit, handleAssignPermissions. simpl.
  replace ((roleId =? "") || (List.length permissionIds =? 0)%nat) with true.
  - reflexivity.
  - symmetry. apply orb_true_iff.
    destruct Hbad as [-> | ->]; [left | right]; reflexivity.
Qed.

(** *** What [commit] sends *)

Lemma guard_passed st :
  selectedRole st <> "" -> selectedPermissions st <> [] ->
  (selectedRole st =? "") || (List.length (selectedPermissions st) =? 0)%nat = false.
Proof.
  intros Hr Hp. apply orb_false_iff. split.
  - apply String.eqb_neq. exact Hr.
  - destruct (selectedPermissions st); [contradiction | reflexivity].
Qed.

Lemma commit_requests st w :
  selectedRole st <> "" -> selectedPermissions st <> [] ->
  exists tail,
    log (snd (handleAssignPermissions st w)) =
      log w ++
      [Requested (DeleteRolePermissions (selectedRole st) None);
       Requested (InsertRolePermissions
                    (map (fun permissionId => (selectedRole st, permissionId))
                         (selectedPermissions st)))] ++ tail.
Proof.
  intros Hr Hp. unfold handleAssignPermissions.
  rewrite (guard_passed st Hr Hp).
  unfold bind at 1. unfold delete_role_permissions.
  match goal with |- context [rpc ?q ?f w] =>
    destruct (rpc_trace q f w) as (L1 & _ & _);
    destruct (rpc q f w) as [r1 w1] end.
  simpl in L1. unfold bind at 1. unfold insert_role_permissions.
  match goal with |- context [rpc ?q ?f w1] =>
    destruct (rpc_trace q f w1) as (L2 & _ & _);
    destruct (rpc q f w1) as [[err|u] w2] end; simpl in L2.
  - exists [Toasted (failure (message err))].
    unfold bind, toast, emit, ret. simpl.
    rewrite L2, L1, <- !app_assoc. reflexivity.
  - unfold bind, toast, emit. simpl. rewrite fetchData_spec. simpl.
    rewrite L2, L1, <- !app_assoc. simpl. eexists. reflexivity.
Qed.

(** *** C9: the pending selection is a list *)

(** C9. Checking a permission that the pending selection already holds
    appends it once more, so the selection holds it twice, without any
    effect on the world; the next commit (for a chosen role) then sends
    an insert whose rows hold the pair (role, permission) twice. *)
Theorem toggle_on_again_duplicates p st w :
  In p (selectedPermissions st) ->
  let st' := fst (handlePermissionToggle p true st w) in
  snd (handlePermissionToggle p true st w) = w /\
  selectedPermissions st' = selectedPermissions st ++ [p] /\
  ~ NoDup (selectedPermissions st') /\
  (selectedRole st <> "" ->
   forall w', exists l1 l2 l3 tail,
     log (snd (handleAssignPermissions st' w')) =
       log w' ++
       [Requested (DeleteRolePermissions (selectedRole st) None);
        Requested (InsertRolePermissions
                     (l1 ++ (selectedRole st, p) :: l2 ++ (selectedRole st, p) :: l3))]
       ++ tail).
Proof.
  intros Hin. simpl.
  split; [reflexivity | split; [reflexivity | split]].
  - intros Hnd. apply NoDup_remove_2 with (l' := []) in Hnd.
    apply Hnd. rewrite app_nil_r. exact Hin.
  - intros Hr w'.
    set (st' := setSelectedPermissions (selectedPermissions st ++ [p]) st).
    destruct (commit_requests st' w') as (tail & Hlog).
    + exact Hr.
    + simpl. destruct (selectedPermissions st); discriminate.
    + destruct (in_split _ _ Hin) as (a & b & Hab).
      exists (map (fun x => (selectedRole st, x)) a),
             (map (fun x => (selectedRole st, x)) b), [], tail.
      rewrite Hlog. simpl. rewrite Hab.
      rewrite !map_app. simpl. rewrite <- !app_assoc. reflexivity.
Qed.

(** *** C10: removing one assignment *)

Lemma handleRemovePermission_delivered roleId permissionId st w :
  delivered_next 1 w = true ->
  handleRemovePermission roleId permissionId st w =
    fetchData st
      {| db := Db.delete_role_permission roleId permissionId (db w);
         env := tl (env w); answers := answers w;
         log := log w ++
                [Requested (DeleteRolePermissions roleId (Some permissionId));
                 Toasted (success "Permission removed successfully")] |}.
Proof.
  intros Hd.
  destruct (delivered_next_env _ _ Hd) as (e & rest & He).
  destruct (delivered_next_cons _ _ _ _ He Hd) as [Hn _].
  unfold handleRemovePermission, delete_role_permission, bind at 1.
  erewrite rpc_delivered by (try eassumption; reflexivity).
  unfold bind, toast, emit. simpl. rewrite He, <- app_assoc. reflexivity.
Qed.

(** C10. [handleRemovePermission] opens no confirm dialog: whatever the
    state and the world, the first thing it does is send the delete of
    the row keyed by the pair, and nothing it does afterwards is a
    confirm either.  When that request is answered the store has lost
    exactly that row, the success toast is shown and the three selects
    of [fetchData] follow.  The delete handlers of the two entity
    managers, in contrast, ask first and send nothing when the answer is
    no. *)
Theorem remove_single_is_unguarded roleId permissionId st w :
  (exists tail,
     log (snd (handleRemovePermission roleId permissionId st w)) =
       log w ++ Requested (DeleteRolePermissions roleId (Some permissionId)) :: tail /\
     forallb (fun e => negb (is_confirm e)) tail = true) /\
  answers (snd (handleRemovePermission roleId permissionId st w)) = answers w /\
  (delivered_next 1 w = true ->
   db (snd (handleRemovePermission roleId permissionId st w)) =
     Db.delete_role_permission roleId permissionId (db w) /\
   exists tail,
     log (snd (handleRemovePermission roleId permissionId st w)) =
       log w ++
       [Requested (DeleteRolePermissions roleId (Some permissionId));
        Toasted (success "Permission removed successfully");
        Requested (SelectOrderName Roles);
        Requested (SelectOrderName Permissions);
        Requested SelectRolePermissions] ++ tail) /\
  (hd false (answers w) = false ->
   (forall id pst,
      PermissionsManager.handleDelete id pst w =
        (pst, {| db := db w; env := env w; answers := tl (answers w);
                 log := log w ++
                   [Confirmed "Are you sure you want to delete this permission?" false] |})) /\
   (forall id rst,
      RolesManager.handleDelete id rst w =
        (rst, {| db := db w; env := env w; answers := tl (answers w);
                 log := log w ++
                   [Confirmed "Are you sure you want to delete this role?" false] |}))).
Proof.
  split; [| split; [| split]].
  - unfold handleRemovePermission, delete_role_permission, bind, rpc,
      toast, emit, ret.
    destruct (env w) as [|e rest]; simpl;
      [| destruct (net e); simpl];
      rewrite ?fetchData_spec; simpl;
      try (destruct (delivered_next 3 _)); simpl;
      rewrite <- ?app_assoc; simpl;
      eexists; (split; [reflexivity | reflexivity]).
  - unfold handleRemovePermission, delete_role_permission, bind, rpc,
      toast, emit, ret.
    destruct (env w) as [|e rest]; simpl;
      [| destruct (net e); simpl];
      rewrite ?fetchData_spec; reflexivity.
  - intros Hd. rewrite (handleRemovePermission_delivered _ _ st w Hd).
    rewrite fetchData_spec. simpl. split; [reflexivity |].
    rewrite <- !app_assoc. simpl. eexists. reflexivity.
  - intros Hno. split; intros id xst.
    + unfold PermissionsManager.handleDelete, bind, confirm.
      destruct (answers w) as [|a rest]; simpl in *; [| subst a]; reflexivity.
    + unfold RolesManager.handleDelete, bind, confirm.
      destruct (answers w) as [|a rest]; simpl in *; [| subst a]; reflexivity.
Qed.

(** *** C1: what an answered [commit] does *)

Lemma insert_after_delete t r S s :
  NoDup S ->
  Db.has_id r (Db.roles s) = true ->
  (forall p, In p S -> Db.has_id p (Db.permissions s) = true) ->
  Db.insert_role_permissions t (map (fun p => (r, p)) S)
      (Db.delete_role_permissions_of r s) =
    inr (Db.with_role_permissions s
           (filter (fun rp => negb (Db.role_id rp =? r)) (Db.role_permissions s)
            ++ map (new_row r t) S)).
Proof.
  intros Hnd Hr HS. unfold Db.insert_role_permissions. simpl.
  rewrite add_pairs_fresh.
  - rewrite fk_satisfied; [reflexivity | exact Hr | exact HS].
  - exact Hnd.
  - intros p _. apply has_pair_after_delete.
Qed.

Lemma persisted_after_replace r t S old :
  map Db.permission_id
      (filter (fun rp => Db.role_id rp =? r)
              (filter (fun rp => negb (Db.role_id rp =? r)) old
               ++ map (new_row r t) S)) = S.
Proof.
  rewrite filter_app, map_app.
  replace (filter (fun rp => Db.role_id rp =? r)
             (filter (fun rp => negb (Db.role_id rp =? r)) old)) with (@nil Db.role_permission).
  - simpl. induction S as [|p S IH]; simpl.
    + reflexivity.
    + rewrite String.eqb_refl. simpl. f_equal. exact IH.
  - induction old as [|x old IH]; simpl.
    + reflexivity.
    + destruct (Db.role_id x =? r) eqn:E; simpl; [| rewrite E]; exact IH.
Qed.

Lemma commit_delivered r S st w :
  r <> "" -> S <> [] -> NoDup S ->
  Db.has_id r (Db.roles (db w)) = true ->
  (forall p, In p S -> Db.has_id p (Db.permissions (db w)) = true) ->
  delivered_next 5 w = true ->
  exists t rest,
    let s' :=
      Db.with_role_permissions (db w)
        (filter (fun rp => negb (Db.role_id rp =? r)) (Db.role_permissions (db w))
         ++ map (new_row r t) S) in
    commit r S st w =
      (setLoading false
         (setRolePermissions
            (map of_joined (Db.select_joined s' (Db.role_permissions s')))
            (setPermissions (Db.order_by_name (Db.permissions (db w)))
               (setRoles (Db.order_by_name (Db.roles (db w)))
                  (setSelectedPermissions []
                     (setSelectedRole ""
                        (setIsDialogOpen false
                           (setSelectedPermissions S (setSelectedRole r st)))))))),
       {| db := s'; env := rest; answers := answers w;
          log := log w ++
                 [Requested (DeleteRolePermissions r None);
                  Requested (InsertRolePermissions (map (fun p => (r, p)) S));
                  Toasted (success "Permissions assigned successfully");
                  Requested (SelectOrderName Roles);
                  Requested (SelectOrderName Permissions);
                  Requested SelectRolePermissions] |}).
Proof.
  intros Hr HS Hnd Hrole Hperms Hd.
  destruct (delivered_next_env _ _ Hd) as (e1 & rest1 & He1).
  destruct (delivered_next_cons _ _ _ _ He1 Hd) as [Hn1 Hd1].
  set (w1 := {| db := Db.delete_role_permissions_of r (db w); env := rest1;
                answers := answers w;
                log := log w ++ [Requested (DeleteRolePermissions r None)] |}).
  specialize (Hd1 w1 eq_refl).
  destruct (delivered_next_env _ _ Hd1) as (e2 & rest2 & He2).
  destruct (delivered_next_cons _ _ _ _ He2 Hd1) as [Hn2 Hd2].
  exists (now e2), (tl (tl (tl rest2))). cbv zeta.
  set (s' := Db.with_role_permissions (db w) _).
  set (w2 := {| db := s'; env := rest2; answers := answers w;
                log := log w1 ++
                       [Requested (InsertRolePermissions (map (fun p => (r, p)) S))] |}).
  specialize (Hd2 w2 eq_refl).
  unfold commit, handleAssignPermissions.
  rewrite guard_passed by (simpl; assumption). simpl selectedRole. simpl selectedPermissions.
  unfold bind at 1. unfold delete_role_permissions.
  erewrite rpc_delivered by (try eassumption; reflexivity).
  fold w1. unfold bind at 1. unfold insert_role_permissions.
  erewrite (rpc_delivered _ _ w1 e2 rest2 tt s') by
    (try eassumption; simpl;
     rewrite insert_after_delete by assumption; reflexivity).
  fold w2. unfold bind, toast, emit. cbv beta iota. rewrite fetchData_spec.
  replace (delivered_next 3 _) with true by (symmetry; exact Hd2).
  simpl. rewrite <- !app_assoc. reflexivity.
Qed.

Lemma view_after_replace r S st0 s0 t :
  Db.has_id r (Db.roles s0) = true ->
  (forall p, In p S -> Db.has_id p (Db.permissions s0) = true) ->
  let s' :=
    Db.with_role_permissions s0
      (filter (fun rp => negb (Db.role_id rp =? r)) (Db.role_permissions s0)
       ++ map (new_row r t) S) in
  permissionsFor r
    (setLoading false
       (setRolePermissions
          (map of_joined (Db.select_joined s' (Db.role_permissions s'))) st0)) = S.
Proof.
  intros Hrole0 Hperms0 s'.
  unfold permissionsFor, getRolePermissions. simpl rolePermissions.
  rewrite joined_for.
  - apply persisted_after_replace.
  - intros rp Hin Hrp. simpl in Hin.
    apply in_app_or in Hin as [Hin | Hin].
    + apply filter_In in Hin as [_ Hne].
      apply negb_true_iff, String.eqb_neq in Hne. contradiction.
    + apply in_map_iff in Hin as (p & <- & Hp). simpl. auto.
Qed.

(** C1, as amended. For a non-empty role that the store holds and a
    non-empty list of distinct permissions that the store holds, when
    the five requests are answered: [commit] sends the delete of the
    role's rows, then the insert of one row per id, then refetches; the
    store afterwards holds the former rows of the other roles followed
    by one new row per id; [permissionsFor] of the role is exactly the
    committed ids (up to order: the joined select carries no ORDER BY);
    and committing the same list again, answered too, shows the same. *)
Theorem commit_replaces_grants r S st w :
  r <> "" -> S <> [] -> NoDup S ->
  Db.has_id r (Db.roles (db w)) = true ->
  (forall p, In p S -> Db.has_id p (Db.permissions (db w)) = true) ->
  delivered_next 5 w = true ->
  let res := commit r S st w in
  log (snd res) =
    log w ++
    [Requested (DeleteRolePermissions r None);
     Requested (InsertRolePermissions (map (fun p => (r, p)) S));
     Toasted (success "Permissions assigned successfully");
     Requested (SelectOrderName Roles);
     Requested (SelectOrderName Permissions);
     Requested SelectRolePermissions] /\
  (exists t,
     Db.role_permissions (db (snd res)) =
       filter (fun rp => negb (Db.role_id rp =? r)) (Db.role_permissions (db w))
       ++ map (new_row r t) S) /\
  persisted_for r (db (snd res)) = S /\
  Permutation S (permissionsFor r (fst res)) /\
  (delivered_next 5 (snd res) = true ->
   let res2 := commit r S (fst res) (snd res) in
   Permutation (permissionsFor r (fst res)) (permissionsFor r (fst res2)) /\
   persisted_for r (db (snd res2)) = persisted_for r (db (snd res))).
Proof.
  intros Hr HS Hnd Hrole Hperms Hd res.
  destruct (commit_delivered r S st w Hr HS Hnd Hrole Hperms Hd) as (t & rest & E).
  cbv zeta in E. subst res. rewrite E. cbn [fst snd db log].
  split; [reflexivity |].
  split; [exists t; reflexivity |].
  split; [apply persisted_after_replace |].
  rewrite (view_after_replace r S _ (db w) t Hrole Hperms).
  split; [apply Permutation_refl |].
  intros Hd'.
  match type of Hd' with delivered_next 5 ?w1 = true =>
    match goal with |- context [commit r S ?st1 w1] =>
      destruct (commit_delivered r S st1 w1 Hr HS Hnd Hrole Hperms Hd')
        as (t' & rest' & E') end end.
  cbv zeta in E'. cbv zeta. rewrite E'. cbn [fst snd db].
  set (s1 := Db.with_role_permissions (db w) _).
  split.
  - rewrite (view_after_replace r S _ s1 t' Hrole Hperms).
    apply Permutation_refl.
  - unfold persisted_for. simpl.
    rewrite !persisted_after_replace. reflexivity.
Qed.

(** *** C6: selecting a role, toggling *)

Lemma fetchData_in_sync st w :
  delivered_next 3 w = true ->
  in_sync (fst (fetchData st w)) (db (snd (fetchData st w))).
Proof.
  intros Hd. rewrite fetchData_spec, Hd. reflexivity.
Qed.

Lemma toggles_only_select ts : forall st w,
  run (toggles ts) st w =
    (setSelectedPermissions (selectedPermissions (fst (run (toggles ts) st w))) st, w).
Proof.
  induction ts as [|[p c] ts IH]; intros st w; simpl.
  - destruct st; reflexivity.
  - unfold bind, handlePermissionToggle.
    destruct c; unfold ret; rewrite IH; reflexivity.
Qed.

(** C6, as amended. Selecting a role sets the pending selection to the
    permission ids of the rows for that role in the component's own
    junction list, as last fetched, and touches nothing else.  These
    are the ids the store holds for the role whenever that list is what
    the joined select returns on the present store, which an answered
    [fetchData] establishes.  Any run of toggles is a change of the
    pending selection alone: same world, no request. *)
Theorem role_select_seeds_from_fetched_rows r st w :
  handleRoleSelect r st w =
    (setSelectedPermissions (permissionsFor r st) (setSelectedRole r st), w) /\
  (referential (db w) -> in_sync st (db w) ->
   selectedPermissions (fst (handleRoleSelect r st w)) = persisted_for r (db w)) /\
  (forall st0, delivered_next 3 w = true ->
     in_sync (fst (fetchData st0 w)) (db (snd (fetchData st0 w)))) /\
  (forall ts st1,
     run (toggles ts) st1 w =
       (setSelectedPermissions (selectedPermissions (fst (run (toggles ts) st1 w))) st1,
        w)).
Proof.
  split; [reflexivity |].
  split; [| split].
  - intros Href Hsync. simpl. unfold getRolePermissions, persisted_for.
    rewrite Hsync. apply joined_for.
    intros rp Hin _. apply Href, Hin.
  - intros st0. apply fetchData_in_sync.
  - intros ts st1. apply toggles_only_select.
Qed.

End AssignmentManager.

(** ** The statements on concrete runs *)

Section Runs.
Import RolePermissionsManager.

(** C1 fails as stated. Role [r1] holds [p1]; every request is
    answered; the role is not empty and the list [p2, p2] is not empty.
    The delete goes through, the insert is refused on the primary key,
    and after a further fetch the role shows, and holds, nothing. *)
Lemma commit_of_repeated_id_grants_nothing :
  delivered_next 8 (world assigned (answered 8) []) = true /\
  "r1" <> "" /\ ["p2"; "p2"] <> @nil string /\
  permissionsFor "r1" (fst commit_of_repeated_id) = [] /\
  persisted_for "r1" (db (snd commit_of_repeated_id)) = [] /\
  ~ (forall p, In p ["p2"; "p2"] <->
               In p (permissionsFor "r1" (fst commit_of_repeated_id))).
Proof.
  split; [reflexivity |].
  split; [discriminate |].
  split; [discriminate |].
  split; [vm_compute; reflexivity |].
  split; [vm_compute; reflexivity |].
  intros Hall. destruct (Hall "p2") as [Hin _].
  assert (E : permissionsFor "r1" (fst commit_of_repeated_id) = [])
    by (vm_compute; reflexivity).
  rewrite E in Hin. apply Hin. left. reflexivity.
Qed.

(** C3, on the code. Role [r1] holds [p1] and [p2] is committed for it;
    the delete request is lost and the four that follow are answered.
    The lost delete is reported by no toast: the only toast of the run
    is the success one, and the role ends up with both permissions. *)
Lemma lost_delete_goes_unreported :
  let (st0, w0) := mounted_then_one_lost in
  fst (delete_role_permissions "r1" w0) = inl Db.FetchError /\
  let (st, w) := commit "r1" ["p2"] st0 w0 in
  skipn 3 (log w) =
    [Requested (DeleteRolePermissions "r1" None);
     Requested (InsertRolePermissions [("r1", "p2")]);
     Toasted (success "Permissions assigned successfully");
     Requested (SelectOrderName Roles);
     Requested (SelectOrderName Permissions);
     Requested SelectRolePermissions] /\
  existsb is_failure (log w) = false /\
  persisted_for "r1" (db w) = ["p1"; "p2"] /\
  permissionsFor "r1" st = ["p1"; "p2"].
Proof. vm_compute. repeat split. Qed.

(** C6 fails as stated. After an unlink whose refetch is lost, selecting
    [r1] seeds the selection with [p1], which the store no longer holds
    for it; after a commit whose refetch is lost, selecting [r2] seeds
    the empty selection although the store holds [p1] for it. *)
Lemma selection_seeded_from_stale_rows :
  (let (st, w) := select_after_lost_refetch in
   selectedRole st = "r1" /\ selectedPermissions st = ["p1"] /\
   persisted_for "r1" (db w) = []) /\
  (let (st, w) := select_after_lost_refetch_of_commit in
   selectedRole st = "r2" /\ selectedPermissions st = [] /\
   persisted_for "r2" (db w) = ["p1"]).
Proof. vm_compute. repeat split. Qed.

(** C8 fails as stated. The list is fetched, a permission is created,
    and the refetch that follows is lost: the failure toast is shown and
    the list still holds the nine rows of the first fetch. *)
Lemma lost_refetch_keeps_rows :
  let (st, w) := create_then_lost_refetch in
  log w =
    [Requested (SelectOrderName Permissions);
     Requested (Insert Permissions "read:reports" "Can view reports");
     Toasted (success "Permission created successfully");
     Requested (SelectOrderName Permissions);
     Toasted (failure (Literal "Failed to fetch permissions"))] /\
  map Db.name (PermissionsManager.permissions st) =
    ["delete:permissions"; "delete:roles"; "delete:users";
     "read:permissions"; "read:roles"; "read:users";
     "write:permissions"; "write:roles"; "write:users"] /\
  PermissionsManager.permissions st <> [].
Proof. vm_compute. repeat split. discriminate. Qed.

(** C1 at work: [p1] and [p2] committed twice for [r1], all ten requests
    answered. *)
Lemma commit_replaces_grants_witness :
  Permutation ["p1"; "p2"]
    (permissionsFor "r1"
       (fst (commit "r1" ["p1"; "p2"] initial (world assigned (answered 10) [])))) /\
  persisted_for "r1"
    (db (snd (commit "r1" ["p1"; "p2"]
                (fst (commit "r1" ["p1"; "p2"] initial
                        (world assigned (answered 10) [])))
                (snd (commit "r1" ["p1"; "p2"] initial
                        (world assigned (answered 10) []))))))
  = persisted_for "r1"
      (db (snd (commit "r1" ["p1"; "p2"] initial (world assigned (answered 10) [])))).
Proof.
  destruct (commit_replaces_grants "r1" ["p1"; "p2"] initial
              (world assigned (answered 10) []))
    as (_ & _ & _ & Hview & Hagain).
  - discriminate.
  - discriminate.
  - repeat constructor; simpl; intuition discriminate.
  - reflexivity.
  - intros p [<- | [<- | []]]; reflexivity.
  - reflexivity.
  - split; [exact Hview |].
    apply Hagain. vm_compute. reflexivity.
Defined.

(** C2 at work: a role and no permission. *)
Lemma commit_rejected_before_any_store_call_witness :
  ("r1" = "" \/ @nil string = []) /\
  commit "r1" [] initial (world seed (answered 5) []) =
    (setSelectedPermissions [] (setSelectedRole "r1" initial),
     logged [Toasted (failure
               (Literal "Please select a role and at least one permission"))]
            (world seed (answered 5) [])).
Proof.
  split.
  - right. reflexivity.
  - apply commit_rejected_before_any_store_call. right. reflexivity.
Defined.

(** C4 at work: a second [read:users] on the seed rows. *)
Lemma create_existing_name_fails_witness :
  exists c,
    PermissionsManager.handleSubmit "read:users" "again" PermissionsManager.initial
      (world seed [ok "p10" 1%Z] []) =
      (PermissionsManager.initial,
       {| db := seed; env := []; answers := [];
          log := [Requested (Insert Permissions "read:users" "again");
                  Toasted (failure (message (Db.UniqueViolation c)))] |}).
Proof.
  destruct (create_existing_name_fails "read:users" "again" PermissionsManager.initial
              (world seed [ok "p10" 1%Z] []))
    as (error & Hrun & Hunique).
  - reflexivity.
  - exists (seeded "p1" "read:users" "Can view user information").
    split; [left; reflexivity | reflexivity].
  - destruct (Hunique eq_refl) as (c & ->). exists c. exact Hrun.
Defined.

(** C5 at work: role [r1] deleted from a store where [r1] and [r2] are
    both granted [p1] and both held by a user. *)
Lemma delete_role_cascades_witness :
  hd false [true] = true /\
  reaches_store (world staffed (answered 2) [true]) = true /\
  forall rp,
    In rp (Db.role_permissions
             (db (snd (RolesManager.handleDelete "r1" RolesManager.initial
                         (world staffed (answered 2) [true])))))
    <-> In rp (Db.role_permissions staffed) /\ Db.role_id rp <> "r1".
Proof.
  split; [reflexivity |].
  split; [reflexivity |].
  apply (delete_role_cascades "r1" RolesManager.initial
           (world staffed (answered 2) [true])).
  - reflexivity.
  - reflexivity.
Defined.

(** C6 at work: [r1] selected right after an answered fetch. *)
Lemma role_select_seeds_from_fetched_rows_witness :
  selectedPermissions
    (fst (handleRoleSelect "r1"
            (fst (fetchData initial (world assigned (answered 3) [])))
            (snd (fetchData initial (world assigned (answered 3) [])))))
  = persisted_for "r1" assigned /\
  in_sync (fst (fetchData initial (world assigned (answered 3) []))) assigned.
Proof.
  split.
  - apply (role_select_seeds_from_fetched_rows "r1"
             (fst (fetchData initial (world assigned (answered 3) [])))
             (snd (fetchData initial (world assigned (answered 3) [])))).
    + intros rp [<- | []]. split; reflexivity.
    + reflexivity.
  - apply (role_select_seeds_from_fetched_rows "r1" initial
             (world assigned (answered 3) [])).
    reflexivity.
Defined.

(** C7 at work: the seed rows, fetched. *)
Lemma list_is_all_permissions_by_name_witness :
  delivered_next 1 (world seed (answered 1) []) = true /\
  Sorted by_name
    (PermissionsManager.permissions
       (fst (PermissionsManager.fetchPermissions PermissionsManager.initial
               (world seed (answered 1) [])))).
Proof.
  split.
  - reflexivity.
  - apply (list_is_all_permissions_by_name PermissionsManager.initial
             (world seed (answered 1) [])).
    reflexivity.
Defined.

(** C8 at work: the first fetch of a mounted component is lost. *)
Lemma failed_fetch_keeps_list_witness :
  delivered_next 1 (world seed [down] []) = false /\
  PermissionsManager.permissions
    (fst (PermissionsManager.fetchPermissions PermissionsManager.initial
            (world seed [down] []))) = [].
Proof.
  split.
  - reflexivity.
  - apply (failed_fetch_keeps_list PermissionsManager.initial (world seed [down] [])).
    reflexivity.
Defined.

(** C9 at work: [p1] checked while selected, then committed for [r1]. *)
Lemma toggle_on_again_duplicates_witness :
  ~ NoDup
      (selectedPermissions
         (fst (handlePermissionToggle "p1" true
                 (setSelectedPermissions ["p1"] (setSelectedRole "r1" initial))
                 (world seed [] [])))) /\
  exists l1 l2 l3 tail,
    log (snd (handleAssignPermissions
                (fst (handlePermissionToggle "p1" true
                        (setSelectedPermissions ["p1"] (setSelectedRole "r1" initial))
                        (world seed [] [])))
                (world seed (answered 5) []))) =
      [] ++
      [Requested (DeleteRolePermissions "r1" None);
       Requested (InsertRolePermissions
                    (l1 ++ ("r1", "p1") :: l2 ++ ("r1", "p1") :: l3))] ++ tail.
Proof.
  destruct (toggle_on_again_duplicates "p1"
              (setSelectedPermissions ["p1"] (setSelectedRole "r1" initial))
              (world seed [] []))
    as (_ & _ & Hdup & Hsent).
  - left. reflexivity.
  - split; [exact Hdup |].
    apply (Hsent ltac:(discriminate) (world seed (answered 5) [])).
Defined.

(** C10 at work: unlinking [p1] from [r1]; deleting [r1] unanswered. *)
Lemma remove_single_is_unguarded_witness :
  db (snd (handleRemovePermission "r1" "p1" initial (world assigned (answered 4) []))) =
    Db.delete_role_permission "r1" "p1" assigned /\
  RolesManager.handleDelete "r1" RolesManager.initial (world assigned (answered 4) []) =
    (RolesManager.initial,
     {| db := assigned; env := answered 4; answers := [];
        log := [Confirmed "Are you sure you want to delete this role?" false] |}).
Proof.
  destruct (remove_single_is_unguarded "r1" "p1" initial
              (world assigned (answered 4) []))
    as (_ & _ & Hsent & Hguard).
  split.
  - apply Hsent. reflexivity.
  - apply Hguard. reflexivity.
Defined.

End Runs.

(** * Further properties *)

(** ** Keeping a property of the store along a computation *)

Lemma preserves_ret P {A} (a : A) : preserves P (ret a).
Proof. intros w Hw. exact Hw. Qed.

Lemma preserves_bind P {A B} (c : M A) (k : A -> M B) :
  preserves P c -> (forall a, preserves P (k a)) -> preserves P (bind c k).
Proof.
  intros Hc Hk w Hw. unfold bind.
  specialize (Hc w Hw). destruct (c w) as [a w']. apply Hk, Hc.
Qed.

Lemma preserves_toast P t : preserves P (toast t).
Proof. intros w Hw. exact Hw. Qed.

Lemma preserves_confirm P q : preserves P (confirm q).
Proof. intros w Hw. exact Hw. Qed.

Lemma preserves_rpc P {A} q (stmt : Env -> Db.Store -> Db.Error + A * Db.Store) :
  (forall e s a s', P s -> stmt e s = inr (a, s') -> P s') ->
  preserves P (rpc q stmt).
Proof.
  intros Hstmt w Hw. unfold rpc.
  destruct (env w) as [|e rest]; simpl; [exact Hw |].
  destruct (net e); simpl; [| exact Hw |];
    destruct (stmt e (db w)) as [err|[a s']] eqn:E; simpl;
    try exact Hw; apply (Hstmt _ _ _ _ Hw E).
Qed.

Lemma preserves_only_store P (f : Env -> Db.Store -> Db.Error + Db.Store) q :
  (forall e s s', P s -> f e s = inr s' -> P s') ->
  preserves P (rpc q (fun e s => only_store (f e s))).
Proof.
  intros Hf. apply preserves_rpc. intros e s a s' Hs Hstmt.
  unfold only_store in Hstmt. destruct (f e s) as [|s0] eqn:E; inversion Hstmt; subst.
  apply (Hf _ _ _ Hs E).
Qed.

(** ** The keys of the schema hold in every reachable store *)

Lemma not_has_id x t : Db.has_id x t = false -> ~ In x (map Db.id t).
Proof.
  intros Hx Hin. apply in_map_iff in Hin as (r & Hr & Hin).
  assert (Db.has_id x t = true) by (apply has_id_In; eauto).
  congruence.
Qed.

Lemma not_has_name n t : Db.has_name n t = false -> ~ In n (map Db.name t).
Proof.
  intros Hn Hin. apply in_map_iff in Hin as (r & Hr & Hin).
  assert (Db.has_name n t = true) by (apply has_name_In; eauto).
  congruence.
Qed.

Lemma not_has_pair r p t : Db.has_pair r p t = false -> ~ In (r, p) (map pair_of t).
Proof.
  intros Hp Hin. apply in_map_iff in Hin as (x & Hx & Hin).
  inversion Hx; subst.
  assert (Db.has_pair (Db.role_id x) (Db.permission_id x) t = true)
    by (apply has_pair_In; eauto).
  congruence.
Qed.

Lemma NoDup_snoc {A} (l : list A) x : NoDup l -> ~ In x l -> NoDup (l ++ [x]).
Proof.
  intros Hl Hx. apply NoDup_app.
  - exact Hl.
  - constructor; [intros [] | constructor].
  - intros a Ha [<- | []]. contradiction.
Qed.

Lemma NoDup_map_filter {A B} (f : A -> B) g l :
  NoDup (map f l) -> NoDup (map f (filter g l)).
Proof.
  induction l as [|a l IH]; simpl; intros Hnd; [constructor |].
  inversion Hnd as [|? ? Hna Hl]; subst.
  destruct (g a); simpl; [| exact (IH Hl)].
  constructor; [| exact (IH Hl)].
  intros Hin. apply Hna.
  apply in_map_iff in Hin as (b & Hb & Hin).
  apply filter_In in Hin as [Hin _]. apply in_map_iff. eauto.
Qed.

Lemma insert_entity_keys pk nk u t n d tbl tbl' :
  Db.insert_entity pk nk u t n d tbl = inr tbl' ->
  NoDup (map Db.id tbl) -> NoDup (map Db.name tbl) ->
  NoDup (map Db.id tbl') /\ NoDup (map Db.name tbl').
Proof.
  unfold Db.insert_entity. intros Hins Hid Hname.
  destruct (Db.has_id u tbl) eqn:Eu; [discriminate Hins |].
  destruct (Db.has_name n tbl) eqn:En; [discriminate Hins |].
  inversion Hins; subst. rewrite !map_app. simpl.
  split; apply NoDup_snoc; auto using not_has_id, not_has_name.
Qed.

(** The names after a rename: the new one where the id matches. *)
Lemma renamed_names now x n d t m :
  In m (map Db.name
          (map (fun r => if Db.id r =? x
                         then {| Db.id := Db.id r; Db.name := n; Db.description := d;
                                 Db.created_at := Db.created_at r;
                                 Db.updated_at := now |}
                         else r) t)) ->
  (m = n /\ In x (map Db.id t)) \/
  (exists r, In r t /\ Db.name r = m /\ Db.id r <> x).
Proof.
  induction t as [|a t IH]; simpl; [intros [] |].
  intros [Hm | Hin].
  - destruct (Db.id a =? x) eqn:E; simpl in Hm.
    + apply String.eqb_eq in E. left. auto.
    + apply String.eqb_neq in E. right. exists a. auto.
  - destruct (IH Hin) as [[-> Hx] | (r & Hr & Hname & Hne)].
    + left. auto.
    + right. exists r. auto.
Qed.

Lemma update_entity_keys nk now x n d tbl tbl' :
  Db.update_entity nk now x n d tbl = inr tbl' ->
  NoDup (map Db.id tbl) -> NoDup (map Db.name tbl) ->
  map Db.id tbl' = map Db.id tbl /\ NoDup (map Db.name tbl').
Proof.
  unfold Db.update_entity. intros Hupd Hid Hname.
  destruct (negb (Db.has_id x tbl)); [inversion Hupd; subst; auto |].
  destruct (existsb _ tbl) eqn:Eclash; [discriminate Hupd |].
  inversion Hupd; subst. clear Hupd. split.
  - clear. induction tbl as [|r tbl IH]; simpl; [reflexivity |].
    rewrite IH. destruct (Db.id r =? x); reflexivity.
  - assert (Hfree : forall r, In r tbl -> Db.name r = n -> Db.id r = x).
    { intros r Hr Hn.
      destruct (Db.id r =? x) eqn:E; [apply String.eqb_eq; exact E |].
      assert (existsb (fun r => (Db.name r =? n) && negb (Db.id r =? x)) tbl = true).
      { apply existsb_exists. exists r. split; [exact Hr |].
        rewrite E. simpl. rewrite andb_true_r. apply String.eqb_eq. exact Hn. }
      congruence. }
    clear Eclash. induction tbl as [|a tbl IH]; simpl; [constructor |].
    inversion Hid as [|? ? Hia Hid']; inversion Hname as [|? ? Hna Hname']; subst.
    constructor.
    + intros Hin. apply renamed_names in Hin.
      destruct (Db.id a =? x) eqn:E; simpl in Hin.
      * apply String.eqb_eq in E.
        destruct Hin as [[_ Hx] | (r & Hr & Hn & Hne)].
        -- apply Hia. rewrite E. exact Hx.
        -- apply Hne. apply Hfree; [right; exact Hr | exact Hn].
      * apply String.eqb_neq in E.
        destruct Hin as [[Hn _] | (r & Hr & Hn & _)].
        -- apply E. apply Hfree; [left; reflexivity | exact Hn].
        -- apply Hna. apply in_map_iff. eauto.
    + apply IH; auto. intros r Hr. apply Hfree. right. exact Hr.
Qed.

Lemma add_pairs_keys now rows : forall t t',
  Db.add_pairs now rows t = Some t' ->
  NoDup (map pair_of t) -> NoDup (map pair_of t').
Proof.
  induction rows as [|[r p] rows IH]; intros t t' Hadd Hnd; simpl in Hadd.
  - inversion Hadd; subst. exact Hnd.
  - destruct (Db.has_pair r p t) eqn:E; [discriminate Hadd |].
    apply (IH _ _ Hadd). rewrite map_app. simpl.
    apply NoDup_snoc; [exact Hnd | apply not_has_pair, E].
Qed.

Lemma keys_insert_permission u t n d s s' :
  keys_hold s -> Db.insert_permission u t n d s = inr s' -> keys_hold s'.
Proof.
  intros (Hpi & Hpn & Hri & Hrn & Hrp & Hur & Href & Hfk) Hins.
  pose proof (referential_insert_permission _ _ _ _ _ _ Href Hins) as Href'.
  unfold Db.insert_permission in Hins.
  destruct (Db.insert_entity _ _ u t n d (Db.permissions s)) as [|tbl] eqn:E;
    inversion Hins; subst.
  destruct (insert_entity_keys _ _ _ _ _ _ _ _ E Hpi Hpn) as [Hpi' Hpn'].
  repeat apply conj; try exact Href'; simpl; auto.
Qed.

Lemma keys_insert_role u t n d s s' :
  keys_hold s -> Db.insert_role u t n d s = inr s' -> keys_hold s'.
Proof.
  intros (Hpi & Hpn & Hri & Hrn & Hrp & Hur & Href & Hfk) Hins.
  pose proof (referential_insert_role _ _ _ _ _ _ Href Hins) as Href'.
  unfold Db.insert_role in Hins.
  destruct (Db.insert_entity _ _ u t n d (Db.roles s)) as [|tbl] eqn:E;
    inversion Hins; subst.
  destruct (insert_entity_keys _ _ _ _ _ _ _ _ E Hri Hrn) as [Hri' Hrn'].
  repeat apply conj; try exact Href'; simpl; auto.
  intros ur Hin. apply (insert_entity_ids _ _ _ _ _ _ _ _ E). apply Hfk, Hin.
Qed.

Lemma keys_update_permission t x n d s s' :
  keys_hold s -> Db.update_permission t x n d s = inr s' -> keys_hold s'.
Proof.
  intros (Hpi & Hpn & Hri & Hrn & Hrp & Hur & Href & Hfk) Hupd.
  pose proof (referential_update_permission _ _ _ _ _ _ Href Hupd) as Href'.
  unfold Db.update_permission in Hupd.
  destruct (Db.update_entity _ t x n d (Db.permissions s)) as [|tbl] eqn:E;
    inversion Hupd; subst.
  destruct (update_entity_keys _ _ _ _ _ _ _ E Hpi Hpn) as [Hids Hpn'].
  repeat apply conj; try exact Href'; simpl; auto.
  rewrite Hids. exact Hpi.
Qed.

Lemma keys_update_role t x n d s s' :
  keys_hold s -> Db.update_role t x n d s = inr s' -> keys_hold s'.
Proof.
  intros (Hpi & Hpn & Hri & Hrn & Hrp & Hur & Href & Hfk) Hupd.
  pose proof (referential_update_role _ _ _ _ _ _ Href Hupd) as Href'.
  unfold Db.update_role in Hupd.
  destruct (Db.update_entity _ t x n d (Db.roles s)) as [|tbl] eqn:E;
    inversion Hupd; subst.
  destruct (update_entity_keys _ _ _ _ _ _ _ E Hri Hrn) as [Hids Hrn'].
  repeat apply conj; try exact Href'; simpl; auto.
  - rewrite Hids. exact Hri.
  - intros ur Hin. rewrite (update_entity_ids _ _ _ _ _ _ _ E). apply Hfk, Hin.
Qed.

Lemma keys_delete_permission x s : keys_hold s -> keys_hold (Db.delete_permission x s).
Proof.
  intros (Hpi & Hpn & Hri & Hrn & Hrp & Hur & Href & Hfk).
  pose proof (referential_delete_permission x s Href) as Href'.
  repeat apply conj; try exact Href'; simpl; auto;
    unfold Db.delete_entity; apply NoDup_map_filter; assumption.
Qed.

Lemma keys_delete_role x s : keys_hold s -> keys_hold (Db.delete_role x s).
Proof.
  intros (Hpi & Hpn & Hri & Hrn & Hrp & Hur & Href & Hfk).
  pose proof (referential_delete_role x s Href) as Href'.
  repeat apply conj; try exact Href'; simpl; auto;
    try (unfold Db.delete_entity; apply NoDup_map_filter; assumption).
  intros ur Hin. apply filter_In in Hin as [Hin Hne].
  apply negb_true_iff, String.eqb_neq in Hne.
  apply delete_entity_ids; auto.
Qed.

Lemma keys_delete_rows f s :
  keys_hold s ->
  keys_hold (Db.with_role_permissions s (filter f (Db.role_permissions s))).
Proof.
  intros (Hpi & Hpn & Hri & Hrn & Hrp & Hur & Href & Hfk).
  pose proof (referential_delete_rows f s Href) as Href'.
  repeat apply conj; try exact Href'; simpl; auto.
  apply NoDup_map_filter. exact Hrp.
Qed.

Lemma keys_insert_role_permissions t rows s s' :
  keys_hold s -> Db.insert_role_permissions t rows s = inr s' -> keys_hold s'.
Proof.
  intros (Hpi & Hpn & Hri & Hrn & Hrp & Hur & Href & Hfk) Hins.
  pose proof (referential_insert_role_permissions _ _ _ _ Href Hins) as Href'.
  unfold Db.insert_role_permissions in Hins.
  destruct (Db.add_pairs t rows (Db.role_permissions s)) as [tbl|] eqn:E;
    [| discriminate Hins].
  destruct (Db.fk_violation s rows); inversion Hins; subst.
  repeat apply conj; try exact Href'; simpl; auto.
  apply (add_pairs_keys _ _ _ _ E Hrp).
Qed.

Lemma seed_keys_hold : keys_hold seed.
Proof.
  unfold keys_hold. simpl.
  repeat apply conj; try (repeat constructor; simpl; intuition discriminate);
    intros ? [].
Qed.

Lemma keys_select_order_name `{Collation} t : preserves keys_hold (select_order_name t).
Proof.
  apply preserves_rpc. intros e s a s' Hs Hstmt. inversion Hstmt; subst. exact Hs.
Qed.

Lemma keys_select_role_permissions : preserves keys_hold select_role_permissions.
Proof.
  apply preserves_rpc. intros e s a s' Hs Hstmt. inversion Hstmt; subst. exact Hs.
Qed.

Lemma keys_insert t n d : preserves keys_hold (insert t n d).
Proof.
  unfold insert. apply preserves_only_store. intros e s s' Hs.
  destruct t; [apply keys_insert_permission | apply keys_insert_role]; exact Hs.
Qed.

Lemma keys_update t n d x : preserves keys_hold (update t n d x).
Proof.
  unfold update. apply preserves_only_store. intros e s s' Hs.
  destruct t; [apply keys_update_permission | apply keys_update_role]; exact Hs.
Qed.

Lemma keys_delete t x : preserves keys_hold (delete t x).
Proof.
  apply preserves_rpc. intros e s a s' Hs Hstmt. inversion Hstmt; subst.
  destruct t; [apply keys_delete_permission | apply keys_delete_role]; exact Hs.
Qed.

Lemma keys_delete_role_permissions r : preserves keys_hold (delete_role_permissions r).
Proof.
  apply preserves_rpc. intros e s a s' Hs Hstmt. inversion Hstmt; subst.
  apply keys_delete_rows, Hs.
Qed.

Lemma keys_delete_role_permission r p : preserves keys_hold (delete_role_permission r p).
Proof.
  apply preserves_rpc. intros e s a s' Hs Hstmt. inversion Hstmt; subst.
  apply keys_delete_rows, Hs.
Qed.

Lemma keys_insert_role_permissions_call rows :
  preserves keys_hold (insert_role_permissions rows).
Proof.
  unfold insert_role_permissions. apply preserves_only_store. intros e s s' Hs.
  apply keys_insert_role_permissions, Hs.
Qed.

Create HintDb keys.

#[local] Hint Resolve preserves_ret preserves_toast preserves_confirm
  keys_select_order_name keys_select_role_permissions keys_insert keys_update
  keys_delete keys_delete_role_permissions keys_delete_role_permission
  keys_insert_role_permissions_call : keys.

(** Splits a handler along its binds and its case distinctions. *)
Ltac keys :=
  repeat first
    [ progress auto with keys
    | apply preserves_bind; [| intros ?]
    | match goal with
      | |- preserves _ (match ?x with _ => _ end) => destruct x
      end ].

Lemma permissions_step_keys `{Collation} a st :
  preserves keys_hold (PermissionsManager.step a st).
Proof.
  destruct a; simpl;
    unfold PermissionsManager.handleSubmit, PermissionsManager.handleDelete,
      PermissionsManager.fetchPermissions, PermissionsManager.openEditDialog,
      PermissionsManager.openCreateDialog; keys.
Qed.

Lemma roles_step_keys `{Collation} a st : preserves keys_hold (roles_step a st).
Proof.
  destruct a; simpl;
    unfold RolesManager.handleSubmit, RolesManager.handleDelete,
      RolesManager.fetchRoles, RolesManager.openEditDialog,
      RolesManager.openCreateDialog; keys.
Qed.

Lemma assignments_step_keys `{Collation} a st :
  preserves keys_hold (RolePermissionsManager.step a st).
Proof.
  destruct a; simpl;
    unfold RolePermissionsManager.handleAssignPermissions,
      RolePermissionsManager.handleRemovePermission,
      RolePermissionsManager.fetchData,
      RolePermissionsManager.openAssignDialog,
      RolePermissionsManager.handleRoleSelect,
      RolePermissionsManager.handlePermissionToggle; keys.
Qed.

Lemma dashboard_step_keys `{Collation} a d : preserves keys_hold (dashboard_step a d).
Proof.
  destruct a; simpl; apply preserves_bind;
    auto using permissions_step_keys, roles_step_keys, assignments_step_keys,
      preserves_ret.
Qed.

(** X1. Whatever the administrator does in the three managers, in any
    order and from any component state, and whatever becomes of the
    requests, a store in which the keys of the schema hold (unique ids,
    unique names, unique junction pairs, no dangling reference to a role
    or a permission) is left in such a state. *)
Theorem keys_hold_along_every_run `{Collation} l : forall d w,
  keys_hold (db w) -> keys_hold (db (snd (dashboard_run l d w))).
Proof.
  induction l as [|a l IH]; intros d w Hw; simpl.
  - exact Hw.
  - unfold bind. pose proof (dashboard_step_keys a d w Hw) as Hstep.
    destruct (dashboard_step a d w) as [d' w']. apply IH, Hstep.
Qed.

(** ** The loading placeholder *)

Lemma yields_ret {A} (Q : A -> Prop) a : Q a -> yields Q (ret a).
Proof. intros Ha w. exact Ha. Qed.

Lemma yields_bind {A B} (Q : B -> Prop) (c : M A) (k : A -> M B) :
  (forall a, yields Q (k a)) -> yields Q (bind c k).
Proof.
  intros Hk w. unfold bind. destruct (c w) as [a w']. apply Hk.
Qed.

(** Splits a handler down to the states it returns. *)
Ltac yields :=
  repeat first
    [ apply yields_ret
    | apply yields_bind; intros ?
    | match goal with
      | |- yields _ (match ?x with _ => _ end) => destruct x
      | |- yields _ (if ?x then _ else _) => destruct x
      end ].

Lemma permissions_step_loaded `{Collation} a st :
  PermissionsManager.loading st = false ->
  yields (fun st' => PermissionsManager.loading st' = false)
         (PermissionsManager.step a st).
Proof.
  intros Hst. destruct a; simpl;
    unfold PermissionsManager.handleSubmit, PermissionsManager.handleDelete,
      PermissionsManager.fetchPermissions, PermissionsManager.openEditDialog,
      PermissionsManager.openCreateDialog; yields; simpl; auto.
Qed.

Lemma roles_step_loaded `{Collation} a st :
  RolesManager.loading st = false ->
  yields (fun st' => RolesManager.loading st' = false) (roles_step a st).
Proof.
  intros Hst. destruct a; simpl;
    unfold RolesManager.handleSubmit, RolesManager.handleDelete,
      RolesManager.fetchRoles, RolesManager.openEditDialog,
      RolesManager.openCreateDialog; yields; simpl; auto.
Qed.

Lemma assignments_step_loaded `{Collation} a st :
  RolePermissionsManager.loading st = false ->
  yields (fun st' => RolePermissionsManager.loading st' = false)
         (RolePermissionsManager.step a st).
Proof.
  intros Hst. destruct a; simpl;
    unfold RolePermissionsManager.handleAssignPermissions,
      RolePermissionsManager.handleRemovePermission,
      RolePermissionsManager.fetchData,
      RolePermissionsManager.openAssignDialog,
      RolePermissionsManager.handleRoleSelect,
      RolePermissionsManager.handlePermissionToggle; yields; simpl; auto.
Qed.

Lemma dashboard_step_loaded `{Collation} a d w :
  loaded d -> loaded (fst (dashboard_step a d w)).
Proof.
  intros (Hp & Hr & Ha). destruct a as [a|a|a]; simpl; unfold bind.
  - pose proof (permissions_step_loaded a _ Hp w) as Hs.
    destruct (PermissionsManager.step a (permissionsTab d) w) as [st' w'].
    repeat split; assumption.
  - pose proof (roles_step_loaded a _ Hr w) as Hs.
    destruct (roles_step a (rolesTab d) w) as [st' w'].
    repeat split; assumption.
  - pose proof (assignments_step_loaded a _ Ha w) as Hs.
    destruct (RolePermissionsManager.step a (assignmentsTab d) w) as [st' w'].
    repeat split; assumption.
Qed.

Lemma dashboard_run_loaded `{Collation} l : forall d w,
  loaded d -> loaded (fst (dashboard_run l d w)).
Proof.
  induction l as [|a l IH]; intros d w Hd; simpl.
  - exact Hd.
  - unfold bind. pose proof (dashboard_step_loaded a d w Hd) as Hs.
    destruct (dashboard_step a d w) as [d' w']. apply IH, Hs.
Qed.

Lemma permissions_mount_loaded `{Collation} st :
  yields (fun st' => PermissionsManager.loading st' = false)
         (PermissionsManager.fetchPermissions st).
Proof. unfold PermissionsManager.fetchPermissions. yields. reflexivity. Qed.

Lemma roles_mount_loaded `{Collation} st :
  yields (fun st' => RolesManager.loading st' = false) (RolesManager.fetchRoles st).
Proof. unfold RolesManager.fetchRoles. yields. reflexivity. Qed.

Lemma assignments_mount_loaded `{Collation} st :
  yields (fun st' => RolePermissionsManager.loading st' = false)
         (RolePermissionsManager.fetchData st).
Proof. unfold RolePermissionsManager.fetchData. yields. reflexivity. Qed.

(** X2. Once the three managers have made their first fetch, answered or
    not, none of them shows its loading placeholder again, whatever is
    done afterwards and whatever becomes of the requests: a failed first
    fetch leaves an empty table, not an endless "Loading". *)
Theorem never_loading_again `{Collation} l d w :
  loaded
    (fst (dashboard_run
            (OnPermissions PermissionsManager.Mount
             :: OnRoles MountRoles
             :: OnAssignments RolePermissionsManager.Mount :: l) d w)).
Proof.
  change (dashboard_run (?a :: ?b :: ?c :: l) d w)
    with (dashboard_run ([a; b; c] ++ l) d w).
  assert (Hrun : forall l1 l2 d0 w0,
            dashboard_run (l1 ++ l2) d0 w0 =
            dashboard_run l2 (fst (dashboard_run l1 d0 w0))
                             (snd (dashboard_run l1 d0 w0))).
  { induction l1 as [|a l1 IH]; intros l2 d0 w0; simpl.
    - reflexivity.
    - unfold bind. destruct (dashboard_step a d0 w0) as [d1 w1]. apply IH. }
  rewrite Hrun. apply dashboard_run_loaded.
  cbn [dashboard_run dashboard_step PermissionsManager.step roles_step
       RolePermissionsManager.step].
  unfold bind.
  pose proof (permissions_mount_loaded (permissionsTab d) w) as H1.
  destruct (PermissionsManager.fetchPermissions (permissionsTab d) w) as [s1 w1].
  unfold ret at 1. cbn [rolesTab].
  pose proof (roles_mount_loaded (rolesTab d) w1) as H2.
  destruct (RolesManager.fetchRoles (rolesTab d) w1) as [s2 w2].
  unfold ret at 1. cbn [assignmentsTab].
  pose proof (assignments_mount_loaded (assignmentsTab d) w2) as H3.
  destruct (RolePermissionsManager.fetchData (assignmentsTab d) w2) as [s3 w3].
  repeat split; assumption.
Qed.

(** ** Requests the store refuses, rows it looks up *)

Lemma rpc_refused_by_store {A} (q : Query)
    (stmt : Env -> Db.Store -> Db.Error + A * Db.Store) w err :
  (forall e, stmt e (db w) = inl err) ->
  rpc q stmt w =
    (inl (if delivered_next 1 w then err else Db.FetchError),
     {| db := db w; env := tl (env w); answers := answers w;
        log := log w ++ [Requested q] |}).
Proof.
  intros Hs. unfold rpc, delivered_next.
  destruct (env w) as [|e rest]; simpl; [reflexivity |].
  rewrite Hs. destruct (net e); reflexivity.
Qed.

Lemma with_permissions_same s : Db.with_permissions s (Db.permissions s) = s.
Proof. destruct s; reflexivity. Qed.

Lemma with_roles_same s : Db.with_roles s (Db.roles s) = s.
Proof. destruct s; reflexivity. Qed.

Lemma find_name_In x t n :
  Db.find_name x t = Some n -> exists r, In r t /\ Db.id r = x /\ Db.name r = n.
Proof.
  unfold Db.find_name. intros Hf.
  destruct (find (fun r => Db.id r =? x) t) as [r|] eqn:E; [| discriminate Hf].
  inversion Hf; subst. apply find_some in E as [Hin Hid].
  apply String.eqb_eq in Hid. eauto.
Qed.

Lemma find_name_renamed now x n d t :
  Db.has_id x t = true ->
  Db.find_name x
    (map (fun r => if Db.id r =? x
                   then {| Db.id := Db.id r; Db.name := n; Db.description := d;
                           Db.created_at := Db.created_at r; Db.updated_at := now |}
                   else r) t) = Some n.
Proof.
  unfold Db.has_id, Db.find_name. induction t as [|a t IH]; simpl; [discriminate |].
  destruct (Db.id a =? x) eqn:E; simpl.
  - rewrite E. reflexivity.
  - rewrite E. exact IH.
Qed.

Lemma select_joined_row s t j :
  In j (Db.select_joined s t) ->
  exists rp, In rp t /\
    Db.j_role_id j = Db.role_id rp /\ Db.j_permission_id j = Db.permission_id rp /\
    Db.find_name (Db.role_id rp) (Db.roles s) = Some (Db.j_roles_name j) /\
    Db.find_name (Db.permission_id rp) (Db.permissions s) = Some (Db.j_permissions_name j).
Proof.
  induction t as [|rp t IH]; simpl; [intros [] |].
  destruct (Db.find_name (Db.role_id rp) (Db.roles s)) as [rn|] eqn:Er;
    [destruct (Db.find_name (Db.permission_id rp) (Db.permissions s)) as [pn|] eqn:Ep |].
  - intros [<- | Hin].
    + exists rp. simpl. auto.
    + destruct (IH Hin) as (rp' & Hin' & Hrest). exists rp'. auto.
  - intros Hin. destruct (IH Hin) as (rp' & Hin' & Hrest). exists rp'. auto.
  - intros Hin. destruct (IH Hin) as (rp' & Hin' & Hrest). exists rp'. auto.
Qed.

(** Distinguishes whether the fetch under consideration is answered. *)
Ltac case_delivered :=
  match goal with
  | |- context [delivered_next ?n ?x] => destruct (delivered_next n x)
  end.

(** ** The Permission Manager: the other paths of its handlers *)

Section PermissionManagerPaths.
Context `{Collation}.
Import PermissionsManager.

Lemma fetchPermissions_spec st w :
  fetchPermissions st w =
    (setLoading false
       (if delivered_next 1 w
        then setPermissions (Db.order_by_name (Db.permissions (db w))) st
        else st),
     {| db := db w; env := tl (env w); answers := answers w;
        log := log w ++
               [Requested (SelectOrderName Permissions)] ++
               (if delivered_next 1 w then []
                else [Toasted (failure (Literal "Failed to fetch permissions"))]) |}).
Proof.
  unfold fetchPermissions, select_order_name, bind, rpc, toast, emit, ret,
    delivered_next.
  destruct (env w) as [|e rest]; simpl;
    try destruct (net e); simpl; rewrite <- ?app_assoc; reflexivity.
Qed.

Lemma handleSubmit_update p n d st w :
  editingPermission st = Some p ->
  handleSubmit n d st w =
    match update Permissions n d (Db.id p) w with
    | (inl error, w1) => (st, logged [Toasted (failure (message error))] w1)
    | (inr _, w1) =>
        fetchPermissions (setEditingPermission None (setIsDialogOpen false st))
          (logged [Toasted (success "Permission updated successfully")] w1)
    end.
Proof.
  intros Hedit. unfold handleSubmit. rewrite Hedit. unfold bind.
  destruct (update Permissions n d (Db.id p) w) as [[error|u] w1]; reflexivity.
Qed.

Lemma handleSubmit_insert n d st w :
  editingPermission st = None ->
  handleSubmit n d st w =
    match insert Permissions n d w with
    | (inl error, w1) => (st, logged [Toasted (failure (message error))] w1)
    | (inr _, w1) =>
        fetchPermissions (setEditingPermission None (setIsDialogOpen false st))
          (logged [Toasted (success "Permission created successfully")] w1)
    end.
Proof.
  intros Hedit. unfold handleSubmit. rewrite Hedit. unfold bind.
  destruct (insert Permissions n d w) as [[error|u] w1]; reflexivity.
Qed.

Lemma update_permission_clash now x n d s :
  Db.has_id x (Db.permissions s) = true ->
  (exists q, In q (Db.permissions s) /\ Db.name q = n /\ Db.id q <> x) ->
  Db.update_permission now x n (Some d) s = inl (Db.UniqueViolation "permissions_name_key").
Proof.
  intros Hx (q & Hin & Hn & Hne).
  unfold Db.update_permission, Db.update_entity. rewrite Hx. simpl.
  replace (existsb _ (Db.permissions s)) with true; [reflexivity |].
  symmetry. apply existsb_exists. exists q. split; [exact Hin |].
  apply andb_true_iff. split.
  - apply String.eqb_eq. exact Hn.
  - apply negb_true_iff, String.eqb_neq. exact Hne.
Qed.

(** X3. Renaming a permission to the name of another permission is
    refused: the store and the component are as they were (the dialog
    stays open on the edited permission), and the one destructive toast
    carries the violation of [UNIQUE (name)] whenever the store
    answered. *)
Theorem rename_to_taken_name_fails p n d st w :
  editingPermission st = Some p ->
  Db.has_id (Db.id p) (Db.permissions (db w)) = true ->
  (exists q, In q (Db.permissions (db w)) /\ Db.name q = n /\ Db.id q <> Db.id p) ->
  exists error,
    handleSubmit n d st w =
      (st, {| db := db w; env := tl (env w); answers := answers w;
              log := log w ++ [Requested (Update Permissions n d (Db.id p));
                               Toasted (failure (message error))] |}) /\
    (delivered_next 1 w = true -> error = Db.UniqueViolation "permissions_name_key").
Proof.
  intros Hedit Hid Hclash.
  rewrite (handleSubmit_update p n d st w Hedit). unfold update.
  rewrite (rpc_refused_by_store _ _ w (Db.UniqueViolation "permissions_name_key")).
  - eexists. split.
    + unfold logged. simpl. rewrite <- app_assoc. reflexivity.
    + intros ->. reflexivity.
  - intros e. rewrite update_permission_clash by assumption. reflexivity.
Qed.

(** X4. When the edited permission is no longer in the store, the update
    matches no row: the store is unchanged, yet the handler reports
    success, closes the dialog and refetches. *)
Theorem update_of_vanished_row_reports_success p n d st w :
  editingPermission st = Some p ->
  Db.has_id (Db.id p) (Db.permissions (db w)) = false ->
  delivered_next 1 w = true ->
  db (snd (handleSubmit n d st w)) = db w /\
  isDialogOpen (fst (handleSubmit n d st w)) = false /\
  editingPermission (fst (handleSubmit n d st w)) = None /\
  exists tail,
    log (snd (handleSubmit n d st w)) =
      log w ++
      [Requested (Update Permissions n d (Db.id p));
       Toasted (success "Permission updated successfully");
       Requested (SelectOrderName Permissions)] ++ tail.
Proof.
  intros Hedit Hgone Hd.
  destruct (delivered_next_env _ _ Hd) as (e & rest & He).
  destruct (delivered_next_cons _ _ _ _ He Hd) as [Hn _].
  rewrite (handleSubmit_update p n d st w Hedit). unfold update.
  erewrite (rpc_delivered _ _ w e rest tt (db w)); try eassumption.
  - rewrite fetchPermissions_spec. simpl.
    split; [reflexivity |].
    split; [case_delivered; reflexivity |].
    split; [case_delivered; reflexivity |].
    rewrite <- !app_assoc. simpl. eexists. reflexivity.
  - simpl. unfold Db.update_permission, Db.update_entity. rewrite Hgone. simpl.
    rewrite with_permissions_same. reflexivity.
Qed.

(** X5. An answered rename of a permission that the store holds, to a
    name no other permission has, changes that row alone: it keeps its id
    and [created_at], takes the new name and description and the time of
    the update; every other permission, every role and every grant is as
    before, and the joined select shows the new name on the grants of
    that permission. *)
Theorem rename_changes_one_row p n d st w e rest :
  editingPermission st = Some p ->
  Db.has_id (Db.id p) (Db.permissions (db w)) = true ->
  (forall q, In q (Db.permissions (db w)) -> Db.name q = n -> Db.id q = Db.id p) ->
  env w = e :: rest -> net e = Delivered ->
  let s' := db (snd (handleSubmit n d st w)) in
  (forall q, In q (Db.permissions (db w)) -> Db.id q <> Db.id p ->
             In q (Db.permissions s')) /\
  (forall q, In q (Db.permissions (db w)) -> Db.id q = Db.id p ->
             In (renamed (now e) n d q) (Db.permissions s')) /\
  map Db.id (Db.permissions s') = map Db.id (Db.permissions (db w)) /\
  Db.roles s' = Db.roles (db w) /\
  Db.role_permissions s' = Db.role_permissions (db w) /\
  Db.user_roles s' = Db.user_roles (db w) /\
  (forall j, In j (Db.select_joined s' (Db.role_permissions s')) ->
             Db.j_permission_id j = Db.id p -> Db.j_permissions_name j = n).
Proof.
  intros Hedit Hid Hfree He Hn s'.
  set (f := fun r => if Db.id r =? Db.id p
                     then {| Db.id := Db.id r; Db.name := n; Db.description := Some d;
                             Db.created_at := Db.created_at r;
                             Db.updated_at := now e |}
                     else r).
  assert (Hs : s' = Db.with_permissions (db w) (map f (Db.permissions (db w)))).
  { subst s'. rewrite (handleSubmit_update p n d st w Hedit). unfold update.
    erewrite (rpc_delivered _ _ w e rest tt
                (Db.with_permissions (db w) (map f (Db.permissions (db w)))));
      try eassumption.
    - rewrite fetchPermissions_spec. reflexivity.
    - simpl. unfold Db.update_permission, Db.update_entity. rewrite Hid. simpl.
      replace (existsb _ (Db.permissions (db w))) with false; [reflexivity |].
      symmetry. apply not_true_is_false. intros Hex.
      apply existsb_exists in Hex as (q & Hin & Hq).
      apply andb_true_iff in Hq as [Hname Hne].
      apply String.eqb_eq in Hname.
      apply negb_true_iff, String.eqb_neq in Hne.
      apply Hne, Hfree; assumption. }
  rewrite Hs. simpl.
  split; [| split; [| split; [| split; [| split; [| split]]]]]; try reflexivity.
  - intros q Hin Hne. apply in_map_iff. exists q. split; [| exact Hin].
    unfold f. apply String.eqb_neq in Hne. rewrite Hne. reflexivity.
  - intros q Hin Heq. apply in_map_iff. exists q. split; [| exact Hin].
    unfold f. apply String.eqb_eq in Heq. rewrite Heq. reflexivity.
  - rewrite map_map. apply map_ext. intros q. unfold f.
    destruct (Db.id q =? Db.id p); reflexivity.
  - intros j Hin Hj.
    apply select_joined_row in Hin as (rp & _ & _ & Hpid & _ & Hname).
    simpl in Hname. rewrite <- Hpid, Hj in Hname.
    unfold f in Hname. rewrite find_name_renamed in Hname by exact Hid.
    inversion Hname. reflexivity.
Qed.

Lemma fetchPermissions_db st w : db (snd (fetchPermissions st w)) = db w.
Proof. rewrite fetchPermissions_spec. reflexivity. Qed.

Lemma permission_delete_executed x st w :
  hd false (answers w) = true -> reaches_store w = true ->
  db (snd (handleDelete x st w)) = Db.delete_permission x (db w).
Proof.
  intros Ha Hr. unfold handleDelete, bind at 1, confirm.
  destruct (answers w) as [|a rest]; simpl in Ha; [discriminate Ha | subst a].
  simpl. unfold reaches_store in Hr. unfold bind at 1, delete, rpc. simpl.
  destruct (env w) as [|e rest']; [discriminate Hr |].
  destruct (net e); [ | discriminate Hr | ]; simpl.
  - unfold bind, toast, emit. simpl. rewrite fetchPermissions_db. reflexivity.
  - reflexivity.
Qed.

(** X6. Once the delete of permission [x] is confirmed and executed by
    the store, the grants left are exactly the former grants of the other
    permissions, the permissions left are the former ones other than [x],
    and roles and role holders are untouched. *)
Theorem delete_permission_cascades x st w :
  hd false (answers w) = true -> reaches_store w = true ->
  let s' := db (snd (handleDelete x st w)) in
  (forall rp, In rp (Db.role_permissions s') <->
              In rp (Db.role_permissions (db w)) /\ Db.permission_id rp <> x) /\
  (forall q, In q (Db.permissions s') <->
             In q (Db.permissions (db w)) /\ Db.id q <> x) /\
  Db.roles s' = Db.roles (db w) /\
  Db.user_roles s' = Db.user_roles (db w).
Proof.
  intros Ha Hr s'. subst s'. rewrite (permission_delete_executed x st w Ha Hr).
  simpl. unfold Db.delete_entity.
  split; [| split; [| split]]; try reflexivity.
  - intros rp. rewrite filter_In, negb_true_iff, String.eqb_neq. reflexivity.
  - intros q. rewrite filter_In, negb_true_iff, String.eqb_neq. reflexivity.
Qed.

(** X7. A create with a name the store does not hold yet, answered by the
    store and followed by an answered refetch: the store gains the one
    new row, last; the component's list is the sorted list of all rows,
    the new one among them; the dialog is closed. *)
Theorem create_then_listed n d st w e1 e2 rest :
  editingPermission st = None ->
  Db.has_name n (Db.permissions (db w)) = false ->
  env w = e1 :: e2 :: rest -> net e1 = Delivered -> net e2 = Delivered ->
  Db.has_id (random_uuid e1) (Db.permissions (db w)) = false ->
  let row := created (random_uuid e1) (now e1) n d in
  let st' := fst (handleSubmit n d st w) in
  let w' := snd (handleSubmit n d st w) in
  Db.permissions (db w') = Db.permissions (db w) ++ [row] /\
  In row (permissions st') /\
  Permutation (row :: Db.permissions (db w)) (permissions st') /\
  Sorted by_name (permissions st') /\
  isDialogOpen st' = false /\ editingPermission st' = None /\
  log w' = log w ++ [Requested (Insert Permissions n d);
                     Toasted (success "Permission created successfully");
                     Requested (SelectOrderName Permissions)].
Proof.
  intros Hedit Hname He Hn1 Hn2 Hfresh row st' w'.
  assert (Hrun : handleSubmit n d st w =
    (setLoading false
       (setPermissions (Db.order_by_name (Db.permissions (db w) ++ [row]))
          (setEditingPermission None (setIsDialogOpen false st))),
     {| db := Db.with_permissions (db w) (Db.permissions (db w) ++ [row]);
        env := rest; answers := answers w;
        log := log w ++ [Requested (Insert Permissions n d);
                         Toasted (success "Permission created successfully");
                         Requested (SelectOrderName Permissions)] |})).
  { rewrite (handleSubmit_insert n d st w Hedit). unfold insert.
    erewrite (rpc_delivered _ _ w e1 (e2 :: rest) tt
                (Db.with_permissions (db w) (Db.permissions (db w) ++ [row])));
      try eassumption.
    - rewrite fetchPermissions_spec. unfold delivered_next. simpl.
      rewrite Hn2. simpl. rewrite <- !app_assoc. reflexivity.
    - simpl. unfold Db.insert_permission, Db.insert_entity.
      rewrite Hfresh, Hname. reflexivity. }
  subst st' w'. rewrite Hrun. simpl.
  assert (Hperm : Permutation (row :: Db.permissions (db w))
                    (Db.order_by_name (Db.permissions (db w) ++ [row]))).
  { eapply perm_trans; [| apply order_by_name_perm].
    apply Permutation_cons_append. }
  split; [reflexivity |].
  split; [apply (Permutation_in _ Hperm); left; reflexivity |].
  split; [exact Hperm |].
  split; [apply order_by_name_sorted |].
  repeat split.
Qed.

End PermissionManagerPaths.

(** ** The Assignment Manager: the other paths of its handlers *)

Lemma filter_all {A} (f : A -> bool) l :
  (forall x, In x l -> f x = true) -> filter f l = l.
Proof.
  induction l as [|a l IH]; simpl; intros Hall; [reflexivity |].
  rewrite (Hall a (or_introl eq_refl)). f_equal. apply IH.
  intros x Hx. apply Hall. right. exact Hx.
Qed.

Lemma persisted_after_unlink r p s :
  persisted_for r (Db.delete_role_permission r p s) =
  filter (fun q => negb (q =? p)) (persisted_for r s).
Proof.
  unfold persisted_for. simpl.
  induction (Db.role_permissions s) as [|x t IH]; simpl; [reflexivity |].
  destruct (Db.role_id x =? r) eqn:Er; simpl.
  - destruct (Db.permission_id x =? p) eqn:Ep; simpl.
    + exact IH.
    + rewrite Er. simpl. f_equal. exact IH.
  - rewrite Er. exact IH.
Qed.

Lemma persisted_of_others_after_unlink r p r' s :
  r' <> r ->
  persisted_for r' (Db.delete_role_permission r p s) = persisted_for r' s.
Proof.
  intros Hne. unfold persisted_for. simpl.
  induction (Db.role_permissions s) as [|x t IH]; simpl; [reflexivity |].
  destruct (Db.role_id x =? r) eqn:Er; simpl.
  - apply String.eqb_eq in Er.
    assert (E' : (Db.role_id x =? r') = false)
      by (apply String.eqb_neq; congruence).
    destruct (Db.permission_id x =? p); simpl; rewrite E'; exact IH.
  - destruct (Db.role_id x =? r'); simpl; [f_equal |]; exact IH.
Qed.

Lemma repeated_split (S : list string) :
  ~ NoDup S -> exists p l1 l2 l3, S = l1 ++ p :: l2 ++ p :: l3.
Proof.
  induction S as [|a S IH]; intros Hdup.
  - exfalso. apply Hdup. constructor.
  - destruct (in_dec string_dec a S) as [Hin | Hnin].
    + destruct (in_split _ _ Hin) as (l2 & l3 & ->).
      exists a, [], l2, l3. reflexivity.
    + destruct IH as (p & l1 & l2 & l3 & ->).
      * intros Hnd. apply Hdup. constructor; assumption.
      * exists p, (a :: l1), l2, l3. reflexivity.
Qed.

Lemma fk_violated s r S :
  Db.has_id r (Db.roles s) = false \/
  (exists p, In p S /\ Db.has_id p (Db.permissions s) = false) ->
  S <> [] ->
  exists c, Db.fk_violation s (map (fun p => (r, p)) S) = Some (Db.ForeignKeyViolation c).
Proof.
  intros Hbad HS. unfold Db.fk_violation.
  destruct (forallb (fun rp => Db.has_id (fst rp) (Db.roles s))
              (map (fun p => (r, p)) S)) eqn:E1; simpl; [| eauto].
  destruct (forallb (fun rp => Db.has_id (snd rp) (Db.permissions s))
              (map (fun p => (r, p)) S)) eqn:E2; simpl; [| eauto].
  exfalso. rewrite forallb_forall in E1, E2.
  destruct Hbad as [Hr | (p & Hp & Hperm)].
  - destruct S as [|p S]; [contradiction |].
    specialize (E1 (r, p) (or_introl eq_refl)). simpl in E1. congruence.
  - specialize (E2 (r, p)). simpl in E2. rewrite E2 in Hperm; [discriminate |].
    apply in_map_iff. eauto.
Qed.

Section AssignmentManagerPaths.
Context `{Collation}.
Import RolePermissionsManager.

(** X8. The composite fetch is all or nothing: when any of its three
    selects is not answered, the three are sent all the same, one
    destructive toast is shown, and roles, permissions and grants in the
    component stay as they were; only the loading flag is cleared. *)
Theorem composite_fetch_is_all_or_nothing st w :
  delivered_next 3 w = false ->
  fetchData st w =
    (setLoading false st,
     {| db := db w; env := tl (tl (tl (env w))); answers := answers w;
        log := log w ++
               [Requested (SelectOrderName Roles);
                Requested (SelectOrderName Permissions);
                Requested SelectRolePermissions;
                Toasted (failure (Literal "Failed to fetch data"))] |}).
Proof.
  intros Hd. rewrite fetchData_spec, Hd. reflexivity.
Qed.

(** X9. After an answered composite fetch every grant the component holds
    names a role and a permission that are in the component's own lists,
    under the names shown, and is listed under the card of its role. *)
Theorem fetched_grants_are_consistent st w :
  delivered_next 3 w = true ->
  let st' := fst (fetchData st w) in
  forall rp, In rp (rolePermissions st') ->
    (exists r, In r (roles st') /\ Db.id r = role_id rp /\ Db.name r = name (role rp)) /\
    (exists q, In q (permissions st') /\ Db.id q = permission_id rp /\
               Db.name q = name (permission rp)) /\
    In rp (getRolePermissions (role_id rp) st').
Proof.
  intros Hd st' rp Hin. subst st'.
  rewrite fetchData_spec, Hd in *. simpl in *.
  split; [| split].
  - apply in_map_iff in Hin as (j & <- & Hj).
    apply select_joined_row in Hj as (x & _ & Hr & _ & Hrn & _).
    apply find_name_In in Hrn as (r & Hrin & Hid & Hname).
    exists r. simpl. rewrite Hr.
    split; [apply (Permutation_in _ (order_by_name_perm _)), Hrin | auto].
  - apply in_map_iff in Hin as (j & <- & Hj).
    apply select_joined_row in Hj as (x & _ & _ & Hp & _ & Hpn).
    apply find_name_In in Hpn as (q & Hqin & Hid & Hname).
    exists q. simpl. rewrite Hp.
    split; [apply (Permutation_in _ (order_by_name_perm _)), Hqin | auto].
  - unfold getRolePermissions. simpl. apply filter_In.
    split; [exact Hin | apply String.eqb_refl].
Qed.

Lemma unlink_executed r p st w :
  reaches_store w = true ->
  db (snd (handleRemovePermission r p st w)) = Db.delete_role_permission r p (db w).
Proof.
  intros Hr. unfold reaches_store in Hr.
  unfold handleRemovePermission, delete_role_permission, bind, rpc, toast, emit, ret.
  destruct (env w) as [|e rest]; [discriminate Hr |].
  destruct (net e); [| discriminate Hr |]; simpl;
    rewrite ?fetchData_spec; reflexivity.
Qed.

(** X10. An unlink that the store executes removes the grant of that
    permission to that role and nothing else: the other grants, the
    grants of every other role, and the three other tables are as
    before. *)
Theorem unlink_removes_that_grant r p st w :
  reaches_store w = true ->
  let s' := db (snd (handleRemovePermission r p st w)) in
  (forall rp, In rp (Db.role_permissions s') <->
              In rp (Db.role_permissions (db w)) /\
              ~ (Db.role_id rp = r /\ Db.permission_id rp = p)) /\
  persisted_for r s' = filter (fun q => negb (q =? p)) (persisted_for r (db w)) /\
  (forall r', r' <> r -> persisted_for r' s' = persisted_for r' (db w)) /\
  Db.permissions s' = Db.permissions (db w) /\
  Db.roles s' = Db.roles (db w) /\
  Db.user_roles s' = Db.user_roles (db w).
Proof.
  intros Hr s'. subst s'. rewrite (unlink_executed r p st w Hr).
  split; [| split; [| split; [| repeat split]]].
  - intros rp. simpl. rewrite filter_In, negb_true_iff, andb_false_iff.
    rewrite !String.eqb_neq. split.
    + intros [Hin Hne]. split; [exact Hin |]. intros [Hr' Hp']. tauto.
    + intros [Hin Hne]. split; [exact Hin |].
      destruct (string_dec (Db.role_id rp) r); [right | left]; tauto.
  - apply persisted_after_unlink.
  - intros r' Hne. apply persisted_of_others_after_unlink, Hne.
Qed.

(** X11. Unlinking a pair that the store does not hold is not an error:
    the delete matches no row, the grants are unchanged, and the handler
    shows the success toast and refetches like for a real removal. *)
Theorem unlink_of_absent_grant_reports_success r p st w :
  Db.has_pair r p (Db.role_permissions (db w)) = false ->
  delivered_next 1 w = true ->
  Db.role_permissions (db (snd (handleRemovePermission r p st w))) =
    Db.role_permissions (db w) /\
  exists tail,
    log (snd (handleRemovePermission r p st w)) =
      log w ++
      [Requested (DeleteRolePermissions r (Some p));
       Toasted (success "Permission removed successfully");
       Requested (SelectOrderName Roles);
       Requested (SelectOrderName Permissions);
       Requested SelectRolePermissions] ++ tail.
Proof.
  intros Habsent Hd.
  rewrite (handleRemovePermission_delivered r p st w Hd), fetchData_spec. simpl.
  split.
  - apply filter_all. intros x Hx. apply negb_true_iff.
    destruct ((Db.role_id x =? r) && (Db.permission_id x =? p)) eqn:E; [| reflexivity].
    apply andb_true_iff in E as [Er Ep].
    apply String.eqb_eq in Er, Ep.
    assert (Db.has_pair r p (Db.role_permissions (db w)) = true)
      by (apply has_pair_In; eauto).
    congruence.
  - rewrite <- !app_assoc. simpl. eexists. reflexivity.
Qed.

(** X12. A toggle makes the checkbox tell the truth: afterwards the
    permission is in the pending selection exactly when the box was
    checked, and the membership of every other permission is as before.
    Checking a permission that was not selected and unchecking it again
    gives the selection back, and a selection without repetition stays so
    unless a selected permission is checked again. *)
Theorem toggle_sets_membership p c st w :
  let sel := selectedPermissions st in
  let sel' := selectedPermissions (fst (handlePermissionToggle p c st w)) in
  (In p sel' <-> c = true) /\
  (forall q, q <> p -> (In q sel' <-> In q sel)) /\
  (~ In p sel ->
   selectedPermissions
     (fst (handlePermissionToggle p false
             (fst (handlePermissionToggle p true st w)) w)) = sel) /\
  (NoDup sel -> c = false \/ ~ In p sel -> NoDup sel').
Proof.
  cbv zeta. split; [| split; [| split]].
  - destruct c; simpl.
    + split; [reflexivity |]. intros _. apply in_or_app. right. left. reflexivity.
    + split; [| discriminate]. intros Hin.
      apply filter_In in Hin as [_ Hne].
      apply negb_true_iff, String.eqb_neq in Hne. contradiction.
  - intros q Hq. destruct c; simpl.
    + rewrite in_app_iff. simpl. intuition congruence.
    + rewrite filter_In, negb_true_iff, String.eqb_neq. tauto.
  - intros Hnin. simpl. rewrite filter_app. simpl.
    rewrite String.eqb_refl. simpl. rewrite app_nil_r.
    apply filter_all. intros x Hx. apply negb_true_iff, String.eqb_neq.
    intros ->. contradiction.
  - intros Hnd Hok. destruct c; simpl.
    + destruct Hok as [Hc | Hnin]; [discriminate |].
      apply NoDup_snoc; assumption.
    + apply NoDup_filter, Hnd.
Qed.

(** *** A commit whose insert does not go through *)

Lemma commit_insert_refused r S st w err :
  r <> "" -> S <> [] -> delivered_next 2 w = true ->
  (forall t, Db.insert_role_permissions t (map (fun p => (r, p)) S)
               (Db.delete_role_permissions_of r (db w)) = inl err) ->
  commit r S st w =
    (setSelectedPermissions S (setSelectedRole r st),
     {| db := Db.delete_role_permissions_of r (db w);
        env := tl (tl (env w)); answers := answers w;
        log := log w ++
               [Requested (DeleteRolePermissions r None);
                Requested (InsertRolePermissions (map (fun p => (r, p)) S));
                Toasted (failure (message err))] |}).
Proof.
  intros Hr HS Hd Hrefused.
  destruct (delivered_next_env _ _ Hd) as (e1 & rest1 & He1).
  destruct (delivered_next_cons _ _ _ _ He1 Hd) as [Hn1 Hd1].
  set (w1 := {| db := Db.delete_role_permissions_of r (db w); env := rest1;
                answers := answers w;
                log := log w ++ [Requested (DeleteRolePermissions r None)] |}).
  specialize (Hd1 w1 eq_refl).
  unfold commit, handleAssignPermissions.
  rewrite guard_passed by (simpl; assumption).
  simpl selectedRole. simpl selectedPermissions.
  unfold bind at 1. unfold delete_role_permissions.
  erewrite rpc_delivered by (try eassumption; reflexivity).
  fold w1. unfold bind at 1. unfold insert_role_permissions.
  rewrite (rpc_refused_by_store _ _ w1 err).
  - rewrite Hd1. unfold bind, toast, emit, ret. simpl.
    rewrite He1, <- !app_assoc. reflexivity.
  - intros e. simpl. rewrite Hrefused. reflexivity.
Qed.

Lemma persisted_after_delete r s :
  persisted_for r (Db.delete_role_permissions_of r s) = [].
Proof.
  unfold persisted_for. simpl.
  induction (Db.role_permissions s) as [|x t IH]; simpl; [reflexivity |].
  destruct (Db.role_id x =? r) eqn:E; simpl; [| rewrite E]; exact IH.
Qed.

(** X13. A commit whose selection holds a permission twice, answered by
    the store, always ends the same way: the role's former grants are
    deleted, the insert is refused on the primary key of the junction
    table, the error is shown, and the role is left with no permission;
    the dialog keeps the role and the selection. *)
Theorem repeated_id_empties_role r S st w :
  r <> "" -> ~ NoDup S -> delivered_next 2 w = true ->
  commit r S st w =
    (setSelectedPermissions S (setSelectedRole r st),
     {| db := Db.delete_role_permissions_of r (db w);
        env := tl (tl (env w)); answers := answers w;
        log := log w ++
               [Requested (DeleteRolePermissions r None);
                Requested (InsertRolePermissions (map (fun p => (r, p)) S));
                Toasted (failure
                           (message (Db.UniqueViolation "role_permissions_pkey")))] |}) /\
  persisted_for r (db (snd (commit r S st w))) = [].
Proof.
  intros Hr Hdup Hd.
  assert (HS : S <> []) by (intros ->; apply Hdup; constructor).
  assert (Hrefused : forall t,
            Db.insert_role_permissions t (map (fun p => (r, p)) S)
              (Db.delete_role_permissions_of r (db w)) =
            inl (Db.UniqueViolation "role_permissions_pkey")).
  { intros t. destruct (repeated_split S Hdup) as (p & l1 & l2 & l3 & ->).
    rewrite !map_app. simpl. rewrite map_app. simpl.
    apply repeated_pair_is_refused. }
  rewrite (commit_insert_refused r S st w _ Hr HS Hd Hrefused).
  split; [reflexivity | apply persisted_after_delete].
Qed.

(** X14. A commit for a role the store does not hold, or of a selection
    with a permission the store does not hold, answered by the store:
    the role's former grants are deleted, the insert is refused on a
    foreign key, the error is shown and the role is left with no
    permission. *)
Theorem unknown_id_empties_role r S st w :
  r <> "" -> S <> [] -> NoDup S ->
  Db.has_id r (Db.roles (db w)) = false \/
  (exists p, In p S /\ Db.has_id p (Db.permissions (db w)) = false) ->
  delivered_next 2 w = true ->
  exists c,
    commit r S st w =
      (setSelectedPermissions S (setSelectedRole r st),
       {| db := Db.delete_role_permissions_of r (db w);
          env := tl (tl (env w)); answers := answers w;
          log := log w ++
                 [Requested (DeleteRolePermissions r None);
                  Requested (InsertRolePermissions (map (fun p => (r, p)) S));
                  Toasted (failure (message (Db.ForeignKeyViolation c)))] |}) /\
    persisted_for r (db (snd (commit r S st w))) = [].
Proof.
  intros Hr HS Hnd Hbad Hd.
  destruct (fk_violated (Db.delete_role_permissions_of r (db w)) r S Hbad HS)
    as (c & Hfk).
  exists c.
  assert (Hrefused : forall t,
            Db.insert_role_permissions t (map (fun p => (r, p)) S)
              (Db.delete_role_permissions_of r (db w)) =
            inl (Db.ForeignKeyViolation c)).
  { intros t. unfold Db.insert_role_permissions.
    rewrite add_pairs_fresh;
      [| exact Hnd | intros p _; exact (has_pair_after_delete r p _)].
    match goal with
    | |- match ?x with _ => _ end = _ =>
        replace x with (Some (Db.ForeignKeyViolation c)) by (symmetry; exact Hfk)
    end.
    reflexivity. }
  rewrite (commit_insert_refused r S st w _ Hr HS Hd Hrefused).
  split; [reflexivity | apply persisted_after_delete].
Qed.

(** X15. The replace is not atomic: when the delete is answered and the
    insert request is lost on its way, the role is left with no
    permission, the grants of the other roles are as before, the error
    is shown, nothing is refetched and the dialog keeps the selection. *)
Theorem lost_insert_empties_role r S st w e1 e2 rest :
  r <> "" -> S <> [] ->
  env w = e1 :: e2 :: rest -> net e1 = Delivered -> net e2 = Dropped ->
  commit r S st w =
    (setSelectedPermissions S (setSelectedRole r st),
     {| db := Db.delete_role_permissions_of r (db w);
        env := rest; answers := answers w;
        log := log w ++
               [Requested (DeleteRolePermissions r None);
                Requested (InsertRolePermissions (map (fun p => (r, p)) S));
                Toasted (failure (message Db.FetchError))] |}) /\
  persisted_for r (db (snd (commit r S st w))) = [] /\
  (forall r', r' <> r ->
     persisted_for r' (db (snd (commit r S st w))) = persisted_for r' (db w)).
Proof.
  intros Hr HS He Hn1 Hn2.
  assert (E : commit r S st w =
    (setSelectedPermissions S (setSelectedRole r st),
     {| db := Db.delete_role_permissions_of r (db w);
        env := rest; answers := answers w;
        log := log w ++
               [Requested (DeleteRolePermissions r None);
                Requested (InsertRolePermissions (map (fun p => (r, p)) S));
                Toasted (failure (message Db.FetchError))] |})).
  { unfold commit, handleAssignPermissions.
    rewrite guard_passed by (simpl; assumption).
    unfold bind, delete_role_permissions, insert_role_permissions, rpc,
      toast, emit, ret.
    simpl. rewrite He, Hn1. simpl. rewrite Hn2. simpl.
    rewrite <- !app_assoc. reflexivity. }
  rewrite E. simpl. split; [reflexivity |].
  split; [apply persisted_after_delete |].
  intros r' Hne. unfold persisted_for. simpl.
  induction (Db.role_permissions (db w)) as [|x t IH]; simpl; [reflexivity |].
  destruct (Db.role_id x =? r) eqn:Er; simpl.
  - apply String.eqb_eq in Er.
    replace (Db.role_id x =? r') with false
      by (symmetry; apply String.eqb_neq; congruence).
    exact IH.
  - destruct (Db.role_id x =? r'); simpl; [f_equal |]; exact IH.
Qed.

End AssignmentManagerPaths.

(** ** Closing the dialog, and what the other managers' deletes leave *)

Section AcrossManagers.
Context `{Collation}.
Import RolePermissionsManager.

Lemma handleAssignPermissions_cases st w :
  let sent :=
    [Requested (DeleteRolePermissions (selectedRole st) None);
     Requested (InsertRolePermissions
                  (map (fun permissionId => (selectedRole st, permissionId))
                       (selectedPermissions st)))] in
  handleAssignPermissions st w =
    (st, logged [Toasted (failure
                   (Literal "Please select a role and at least one permission"))] w) \/
  (exists w2 err,
     log w2 = log w ++ sent /\
     handleAssignPermissions st w =
       (st, logged [Toasted (failure (message err))] w2)) \/
  (exists w2,
     log w2 = log w ++ sent /\
     handleAssignPermissions st w =
       fetchData
         (setSelectedPermissions [] (setSelectedRole "" (setIsDialogOpen false st)))
         (logged [Toasted (success "Permissions assigned successfully")] w2)).
Proof.
  cbv zeta.
  enough (Hgen : forall res, handleAssignPermissions st w = res ->
    res = (st, logged [Toasted (failure
             (Literal "Please select a role and at least one permission"))] w) \/
    (exists w2 err,
       log w2 = log w ++
         [Requested (DeleteRolePermissions (selectedRole st) None);
          Requested (InsertRolePermissions
                       (map (fun permissionId => (selectedRole st, permissionId))
                            (selectedPermissions st)))] /\
       res = (st, logged [Toasted (failure (message err))] w2)) \/
    (exists w2,
       log w2 = log w ++
         [Requested (DeleteRolePermissions (selectedRole st) None);
          Requested (InsertRolePermissions
                       (map (fun permissionId => (selectedRole st, permissionId))
                            (selectedPermissions st)))] /\
       res = fetchData
               (setSelectedPermissions [] (setSelectedRole "" (setIsDialogOpen false st)))
               (logged [Toasted (success "Permissions assigned successfully")] w2)))
    by (apply Hgen; reflexivity).
  intros res. unfold handleAssignPermissions.
  destruct ((selectedRole st =? "") || (List.length (selectedPermissions st) =? 0)%nat).
  - intros <-. left. reflexivity.
  - unfold bind at 1. unfold delete_role_permissions.
    match goal with |- context [rpc ?q ?f w] =>
      destruct (rpc_trace q f w) as (L1 & _ & _);
      destruct (rpc q f w) as [r1 w1] end.
    simpl in L1. unfold bind at 1. unfold insert_role_permissions.
    match goal with |- context [rpc ?q ?f w1] =>
      destruct (rpc_trace q f w1) as (L2 & _ & _);
      destruct (rpc q f w1) as [[err|u] w2] end; simpl in L2;
      rewrite L1, <- app_assoc in L2; simpl in L2; intros <-; right.
    + left. exists w2, err. split; [exact L2 | reflexivity].
    + right. exists w2. split; [exact L2 | reflexivity].
Qed.

(** X16. The assignment dialog closes on success only.  Either
    [handleAssignPermissions] fails (on validation or on the insert): the
    component is exactly as it was, dialog open and selection kept, the
    last thing shown is a destructive toast and no success toast is
    shown; or it shows the success toast, and then the dialog is closed,
    the role and the selection are cleared and the data is refetched. *)
Theorem dialog_closes_on_success_only st w :
  let st' := fst (handleAssignPermissions st w) in
  let w' := snd (handleAssignPermissions st w) in
  let done := Toasted (success "Permissions assigned successfully") in
  exists evs,
    log w' = log w ++ evs /\
    ((st' = st /\ ~ In done evs /\
      exists evs0 d, evs = evs0 ++ [Toasted (failure d)]) \/
     (In done evs /\
      isDialogOpen st' = false /\ selectedRole st' = "" /\
      selectedPermissions st' = [] /\ loading st' = false /\
      In (Requested SelectRolePermissions) evs)).
Proof.
  cbv zeta.
  destruct (handleAssignPermissions_cases st w)
    as [E | [(w2 & err & L2 & E) | (w2 & L2 & E)]]; rewrite E.
  - eexists. split; [reflexivity |]. left.
    split; [reflexivity |]. split.
    + intros [Hd | []]. discriminate Hd.
    + exists [], (Literal "Please select a role and at least one permission").
      reflexivity.
  - simpl. rewrite L2, <- app_assoc.
    eexists. split; [reflexivity |]. left.
    split; [reflexivity |]. split.
    + simpl. intros [Hd | [Hd | [Hd | []]]]; discriminate Hd.
    + eexists [_; _], _. reflexivity.
  - rewrite fetchData_spec. simpl. rewrite L2, <- !app_assoc. simpl.
    eexists. split; [reflexivity |]. right.
    split; [simpl; auto |].
    repeat (split; [case_delivered; reflexivity |]).
    simpl. auto 8.
Qed.

(** X17. After the Permission Manager has deleted permission [x]
    (confirmed, executed by the store), an answered fetch of the
    Assignment Manager shows [x] under no role and not among the
    permissions to choose from. *)
Theorem deleted_permission_leaves_every_view x pst ast w :
  hd false (answers w) = true -> reaches_store w = true ->
  delivered_next 3 (snd (PermissionsManager.handleDelete x pst w)) = true ->
  let ast' := fst (fetchData ast (snd (PermissionsManager.handleDelete x pst w))) in
  (forall r, ~ In x (permissionsFor r ast')) /\
  (forall q, In q (permissions ast') -> Db.id q <> x).
Proof.
  intros Ha Hr Hd ast'. subst ast'.
  pose proof (permission_delete_executed x pst w Ha Hr) as Hdb.
  rewrite fetchData_spec, Hd, Hdb. simpl. split.
  - intros r Hin. unfold permissionsFor, getRolePermissions in Hin. simpl in Hin.
    apply in_map_iff in Hin as (rp & Hx & Hin).
    apply filter_In in Hin as [Hin _].
    apply in_map_iff in Hin as (j & <- & Hj).
    apply select_joined_row in Hj as (row & Hrow & _ & Hp & _).
    simpl in Hrow, Hx. apply filter_In in Hrow as [_ Hne].
    apply negb_true_iff, String.eqb_neq in Hne. congruence.
  - intros q Hq.
    apply (Permutation_in _ (Permutation_sym (order_by_name_perm _))) in Hq.
    unfold Db.delete_entity in Hq. apply filter_In in Hq as [_ Hne].
    apply negb_true_iff, String.eqb_neq in Hne. exact Hne.
Qed.

(** X18. After the Role Manager has deleted role [r] (confirmed, executed
    by the store), an answered fetch of the Assignment Manager has no
    card for [r] and no grant of [r]. *)
Theorem deleted_role_leaves_every_view r rst ast w :
  hd false (answers w) = true -> reaches_store w = true ->
  delivered_next 3 (snd (RolesManager.handleDelete r rst w)) = true ->
  let ast' := fst (fetchData ast (snd (RolesManager.handleDelete r rst w))) in
  getRolePermissions r ast' = [] /\
  (forall q, In q (roles ast') -> Db.id q <> r).
Proof.
  intros Ha Hr Hd ast'. subst ast'.
  pose proof (handleDelete_executed r rst w Ha Hr) as Hdb.
  rewrite fetchData_spec, Hd, Hdb. simpl. split.
  - unfold getRolePermissions. simpl.
    destruct (filter _ _) as [|rp l] eqn:E; [reflexivity |].
    assert (Hin : In rp (rp :: l)) by (left; reflexivity).
    rewrite <- E in Hin. apply filter_In in Hin as [Hin Hrole].
    apply String.eqb_eq in Hrole.
    apply in_map_iff in Hin as (j & <- & Hj).
    apply select_joined_row in Hj as (row & Hrow & Hr' & _).
    simpl in Hrow, Hrole. apply filter_In in Hrow as [_ Hne].
    apply negb_true_iff, String.eqb_neq in Hne. congruence.
  - intros q Hq.
    apply (Permutation_in _ (Permutation_sym (order_by_name_perm _))) in Hq.
    unfold Db.delete_entity in Hq. apply filter_In in Hq as [_ Hne].
    apply negb_true_iff, String.eqb_neq in Hne. exact Hne.
Qed.

End AcrossManagers.

(** ** The Role Manager: names are unique *)

Lemma insert_role_same_name e n d s :
  Db.has_name n (Db.roles s) = true ->
  exists c, Db.insert_role (random_uuid e) (now e) n d s = inl (Db.UniqueViolation c).
Proof.
  intros Hn. unfold Db.insert_role, Db.insert_entity.
  destruct (Db.has_id (random_uuid e) (Db.roles s)).
  - eexists. reflexivity.
  - rewrite Hn. eexists. reflexivity.
Qed.

Lemma update_role_clash now x n d s :
  Db.has_id x (Db.roles s) = true ->
  (exists q, In q (Db.roles s) /\ Db.name q = n /\ Db.id q <> x) ->
  Db.update_role now x n (Some d) s = inl (Db.UniqueViolation "roles_name_key").
Proof.
  intros Hx (q & Hin & Hn & Hne).
  unfold Db.update_role, Db.update_entity. rewrite Hx. simpl.
  replace (existsb _ (Db.roles s)) with true; [reflexivity |].
  symmetry. apply existsb_exists. exists q. split; [exact Hin |].
  apply andb_true_iff. split.
  - apply String.eqb_eq. exact Hn.
  - apply negb_true_iff, String.eqb_neq. exact Hne.
Qed.

(** X19. The Role Manager refuses a name that is taken: creating a role
    under the name of an existing role, or renaming a role the store
    holds to the name of another role, leaves the store and the
    component as they were and shows one destructive toast, which
    carries a unique-constraint violation whenever the store answered. *)
Theorem role_name_taken_fails `{Collation} n d st w :
  match RolesManager.editingRole st with
  | None => exists q, In q (Db.roles (db w)) /\ Db.name q = n
  | Some role =>
      Db.has_id (Db.id role) (Db.roles (db w)) = true /\
      exists q, In q (Db.roles (db w)) /\ Db.name q = n /\ Db.id q <> Db.id role
  end ->
  exists q error,
    RolesManager.handleSubmit n d st w =
      (st, {| db := db w; env := tl (env w); answers := answers w;
              log := log w ++ [Requested q; Toasted (failure (message error))] |}) /\
    (delivered_next 1 w = true -> exists c, error = Db.UniqueViolation c).
Proof.
  unfold RolesManager.handleSubmit.
  destruct (RolesManager.editingRole st) as [role|].
  - intros [Hid Hclash]. unfold bind at 1. unfold bind at 1. unfold update.
    rewrite (rpc_refused_by_store _ _ w (Db.UniqueViolation "roles_name_key")).
    + do 2 eexists. split.
      * unfold bind, toast, emit, ret. simpl. rewrite <- app_assoc. reflexivity.
      * intros ->. eauto.
    + intros e. rewrite update_role_clash by assumption. reflexivity.
  - intros Hex. apply has_name_In in Hex.
    unfold bind at 1. unfold bind at 1. unfold insert, rpc, delivered_next.
    destruct (env w) as [|e rest]; simpl.
    + do 2 eexists. split.
      * unfold bind, toast, emit, ret. simpl. rewrite <- app_assoc. reflexivity.
      * intros Hf. discriminate Hf.
    + destruct (insert_role_same_name e n (Some d) (db w) Hex) as (c & ->). simpl.
      destruct (net e); simpl; do 2 eexists;
        (split;
         [ unfold bind, toast, emit, ret; simpl; rewrite <- app_assoc; reflexivity
         | intros Hf; first [discriminate Hf | eauto] ]).
Qed.

(** ** The form of the Permission Manager *)

Section PermissionForm.
Context `{Collation}.
Import PermissionsManager.

(** X20. A submit of the permission form sends its one insert or update
    and never a second one.  Either that request fails: the component is
    exactly as it was (dialog open, edited permission kept) and the error
    is shown; or it succeeds: the success toast is shown, the dialog is
    closed, the edited permission is forgotten and the list is fetched
    once. *)
Theorem form_closes_on_success_only n d st w :
  let st' := fst (handleSubmit n d st w) in
  let w' := snd (handleSubmit n d st w) in
  let q := match editingPermission st with
           | Some p => Update Permissions n d (Db.id p)
           | None => Insert Permissions n d
           end in
  exists evs,
    log w' = log w ++ evs /\
    ((st' = st /\ requests evs = [q] /\
      exists error, evs = [Requested q; Toasted (failure (message error))]) \/
     (isDialogOpen st' = false /\ editingPermission st' = None /\
      loading st' = false /\
      requests evs = [q; SelectOrderName Permissions] /\
      exists done tail,
        evs = [Requested q; Toasted (success done);
               Requested (SelectOrderName Permissions)] ++ tail)).
Proof.
  cbv zeta.
  destruct (editingPermission st) as [p|] eqn:Hedit.
  - rewrite (handleSubmit_update p n d st w Hedit). unfold update.
    match goal with |- context [rpc ?q ?f w] =>
      destruct (rpc_trace q f w) as (L1 & _ & _);
      destruct (rpc q f w) as [[err|u] w1] end; simpl in L1.
    + simpl. rewrite L1, <- app_assoc. eexists. split; [reflexivity |].
      left. simpl. eauto.
    + rewrite fetchPermissions_spec. simpl. rewrite L1, <- !app_assoc. simpl.
      eexists. split; [reflexivity |]. right.
      repeat (split; [try case_delivered; reflexivity |]).
      do 2 eexists. reflexivity.
  - rewrite (handleSubmit_insert n d st w Hedit). unfold insert.
    match goal with |- context [rpc ?q ?f w] =>
      destruct (rpc_trace q f w) as (L1 & _ & _);
      destruct (rpc q f w) as [[err|u] w1] end; simpl in L1.
    + simpl. rewrite L1, <- app_assoc. eexists. split; [reflexivity |].
      left. simpl. eauto.
    + rewrite fetchPermissions_spec. simpl. rewrite L1, <- !app_assoc. simpl.
      eexists. split; [reflexivity |]. right.
      repeat (split; [try case_delivered; reflexivity |]).
      do 2 eexists. reflexivity.
Qed.

End PermissionForm.

(** ** The dialog flow is a commit *)

Section DialogFlow.
Context `{Collation}.
Import RolePermissionsManager.

Lemma run_app l1 : forall l2 st w,
  run (l1 ++ l2) st w = run l2 (fst (run l1 st w)) (snd (run l1 st w)).
Proof.
  induction l1 as [|a l1 IH]; intros l2 st w; simpl.
  - reflexivity.
  - unfold bind. destruct (step a st w) as [st1 w1]. apply IH.
Qed.

Lemma run_toggles ts : forall st w,
  run (toggles ts) st w =
    (setSelectedPermissions (apply_toggles ts (selectedPermissions st)) st, w).
Proof.
  induction ts as [|[p c] ts IH]; intros st w; simpl.
  - destruct st; reflexivity.
  - unfold bind, handlePermissionToggle.
    destruct c; unfold ret; rewrite IH; reflexivity.
Qed.

(** X21. Choosing a role, clicking any run of checkboxes and pressing
    the button is the commit, for that role, of the role's fetched grants
    as the clicks have changed them: each check appends the permission,
    each uncheck removes its every occurrence. *)
Theorem dialog_flow_is_commit r ts st w :
  run (RoleSelect r :: toggles ts ++ [ClickAssign]) st w =
  commit r (apply_toggles ts (permissionsFor r st)) st w.
Proof.
  change (run (RoleSelect r :: toggles ts ++ [ClickAssign]) st w)
    with (run (toggles ts ++ [ClickAssign])
              (setSelectedPermissions (permissionsFor r st) (setSelectedRole r st)) w).
  rewrite run_app, run_toggles. simpl. unfold bind, commit.
  destruct (handleAssignPermissions _ w) as [st' w']. reflexivity.
Qed.

Lemma persisted_NoDup r t :
  NoDup (map pair_of t) ->
  NoDup (map Db.permission_id (filter (fun rp => Db.role_id rp =? r) t)).
Proof.
  induction t as [|x t IH]; simpl; intros Hnd; [constructor |].
  inversion Hnd as [|? ? Hx Ht]; subst.
  destruct (Db.role_id x =? r) eqn:E; simpl; [| exact (IH Ht)].
  constructor; [| exact (IH Ht)].
  intros Hin. apply Hx.
  apply in_map_iff in Hin as (y & Hy & Hin).
  apply filter_In in Hin as [Hin Hr].
  apply String.eqb_eq in E, Hr.
  apply in_map_iff. exists y. split; [| exact Hin].
  unfold pair_of. congruence.
Qed.

Lemma persisted_of_others_after_replace r r' t S old :
  r' <> r ->
  map Db.permission_id
      (filter (fun rp => Db.role_id rp =? r')
              (filter (fun rp => negb (Db.role_id rp =? r)) old
               ++ map (new_row r t) S)) =
  map Db.permission_id (filter (fun rp => Db.role_id rp =? r') old).
Proof.
  intros Hne. rewrite filter_app, map_app.
  replace (filter (fun rp => Db.role_id rp =? r') (map (new_row r t) S))
    with (@nil Db.role_permission).
  - rewrite app_nil_r. f_equal.
    induction old as [|x old IH]; simpl; [reflexivity |].
    destruct (Db.role_id x =? r) eqn:E; simpl.
    + apply String.eqb_eq in E.
      replace (Db.role_id x =? r') with false
        by (symmetry; apply String.eqb_neq; congruence).
      exact IH.
    + destruct (Db.role_id x =? r'); [f_equal |]; exact IH.
  - induction S as [|p S IH]; simpl; [reflexivity |].
    replace (r =? r') with false
      by (symmetry; apply String.eqb_neq; congruence).
    exact IH.
Qed.

(** X22. Opening the dialog on a role that has grants and pressing the
    button without touching a checkbox is harmless: with the component in
    step with a store whose keys hold and the five requests answered, the
    role holds the same permissions afterwards, and so does every other
    role. *)
Theorem untouched_selection_round_trips r st w :
  r <> "" -> keys_hold (db w) -> in_sync st (db w) ->
  persisted_for r (db w) <> [] ->
  delivered_next 5 w = true ->
  let w' := snd (run [RoleSelect r; ClickAssign] st w) in
  persisted_for r (db w') = persisted_for r (db w) /\
  (forall r', r' <> r -> persisted_for r' (db w') = persisted_for r' (db w)) /\
  In (Toasted (success "Permissions assigned successfully")) (log w').
Proof.
  intros Hr (_ & _ & _ & _ & Hpk & _ & Href & _) Hsync Hsome Hd w'.
  assert (Hsel : permissionsFor r st = persisted_for r (db w)).
  { unfold permissionsFor, getRolePermissions, persisted_for.
    rewrite Hsync. apply joined_for. intros rp Hin _. apply Href, Hin. }
  assert (Hrun : run [RoleSelect r; ClickAssign] st w =
                 commit r (persisted_for r (db w)) st w).
  { rewrite <- Hsel. apply (dialog_flow_is_commit r [] st w). }
  assert (Hrole : Db.has_id r (Db.roles (db w)) = true).
  { unfold persisted_for in Hsome.
    destruct (filter _ (Db.role_permissions (db w))) as [|x l] eqn:E;
      [contradiction Hsome; reflexivity |].
    assert (Hx : In x (x :: l)) by (left; reflexivity).
    rewrite <- E in Hx. apply filter_In in Hx as [Hx Hxr].
    apply String.eqb_eq in Hxr. rewrite <- Hxr. apply Href, Hx. }
  assert (Hperms : forall p, In p (persisted_for r (db w)) ->
                     Db.has_id p (Db.permissions (db w)) = true).
  { intros p Hp. unfold persisted_for in Hp.
    apply in_map_iff in Hp as (x & <- & Hx).
    apply filter_In in Hx as [Hx _]. apply Href, Hx. }
  destruct (commit_delivered r (persisted_for r (db w)) st w Hr Hsome
              (persisted_NoDup r _ Hpk) Hrole Hperms Hd) as (t & rest & E).
  cbv zeta in E. subst w'. rewrite Hrun, E. cbn [snd db log].
  split; [| split].
  - unfold persisted_for at 1. simpl. apply persisted_after_replace.
  - intros r' Hne. unfold persisted_for at 1. simpl.
    apply persisted_of_others_after_replace, Hne.
  - apply in_or_app. right. simpl. auto.
Qed.

End DialogFlow.

(** ** The further statements on concrete runs *)

Section FurtherRuns.
Import RolePermissionsManager.

Lemma assigned_keys_hold : keys_hold assigned.
Proof.
  unfold keys_hold. simpl.
  repeat apply conj;
    first [ intros rp [<- | []]; split; reflexivity
          | intros ? []
          | repeat constructor; simpl; intuition discriminate ].
Qed.

(** X1 at work: a create, a role delete and an assignment on the seed
    rows, with one request in three lost. *)
Lemma keys_hold_along_every_run_witness :
  keys_hold
    (db (snd (dashboard_run
                [ OnPermissions (PermissionsManager.Submit "read:reports" "reports");
                  OnRoles (ClickDeleteRole "r4");
                  OnAssignments (RoleSelect "r1");
                  OnAssignments (PermissionToggle "p1" true);
                  OnAssignments ClickAssign ]
                dashboard
                (world seed [ok "p10" 1%Z; down; ok "" 2%Z; ok "" 3%Z; down; ok "" 4%Z]
                       [true])))).
Proof.
  apply keys_hold_along_every_run. exact seed_keys_hold.
Defined.

(** X3 at work: [read:users] renamed to [write:users]. *)
Lemma rename_to_taken_name_fails_witness :
  exists error,
    PermissionsManager.handleSubmit "write:users" "d"
      (PermissionsManager.setEditingPermission
         (Some (seeded "p1" "read:users" "Can view user information"))
         PermissionsManager.initial)
      (world seed (answered 1) []) =
      (PermissionsManager.setEditingPermission
         (Some (seeded "p1" "read:users" "Can view user information"))
         PermissionsManager.initial,
       {| db := seed; env := []; answers := [];
          log := [Requested (Update Permissions "write:users" "d" "p1");
                  Toasted (failure (message error))] |}) /\
    error = Db.UniqueViolation "permissions_name_key".
Proof.
  destruct (rename_to_taken_name_fails
              (seeded "p1" "read:users" "Can view user information")
              "write:users" "d"
              (PermissionsManager.setEditingPermission
                 (Some (seeded "p1" "read:users" "Can view user information"))
                 PermissionsManager.initial)
              (world seed (answered 1) []))
    as (error & Hrun & Herr).
  - reflexivity.
  - reflexivity.
  - exists (seeded "p2" "write:users" "Can create and update users").
    split; [right; left; reflexivity |]. split; [reflexivity | discriminate].
  - exists error. split; [exact Hrun | apply Herr; reflexivity].
Defined.

(** X4 at work: the edited permission is not in the store. *)
Lemma update_of_vanished_row_reports_success_witness :
  db (snd (PermissionsManager.handleSubmit "n" "d"
             (PermissionsManager.setEditingPermission
                (Some (seeded "gone" "old" "d")) PermissionsManager.initial)
             (world seed (answered 2) []))) = seed.
Proof.
  apply (update_of_vanished_row_reports_success (seeded "gone" "old" "d") "n" "d"
           (PermissionsManager.setEditingPermission
              (Some (seeded "gone" "old" "d")) PermissionsManager.initial)
           (world seed (answered 2) [])); reflexivity.
Defined.

(** X5 at work: [read:users] renamed to [read:accounts] on the store
    where [r1] holds it. *)
Lemma rename_changes_one_row_witness :
  In (renamed 1%Z "read:accounts" "d"
        (seeded "p1" "read:users" "Can view user information"))
     (Db.permissions
        (db (snd (PermissionsManager.handleSubmit "read:accounts" "d"
                    (PermissionsManager.setEditingPermission
                       (Some (seeded "p1" "read:users" "Can view user information"))
                       PermissionsManager.initial)
                    (world assigned (answered 2) []))))) /\
  Db.role_permissions
    (db (snd (PermissionsManager.handleSubmit "read:accounts" "d"
                (PermissionsManager.setEditingPermission
                   (Some (seeded "p1" "read:users" "Can view user information"))
                   PermissionsManager.initial)
                (world assigned (answered 2) [])))) = Db.role_permissions assigned.
Proof.
  destruct (rename_changes_one_row
              (seeded "p1" "read:users" "Can view user information")
              "read:accounts" "d"
              (PermissionsManager.setEditingPermission
                 (Some (seeded "p1" "read:users" "Can view user information"))
                 PermissionsManager.initial)
              (world assigned (answered 2) []) (ok "" 1%Z) (answered 1))
    as (_ & Hrow & _ & _ & Hgrants & _).
  - reflexivity.
  - reflexivity.
  - intros q Hq Hn. simpl in Hq.
    repeat (destruct Hq as [<- | Hq]; [discriminate Hn |]). contradiction.
  - reflexivity.
  - reflexivity.
  - split; [| exact Hgrants].
    apply (Hrow (seeded "p1" "read:users" "Can view user information"));
      [left; reflexivity | reflexivity].
Defined.

(** X6 at work: [p1] deleted from a store where two roles hold it. *)
Lemma delete_permission_cascades_witness :
  hd false [true] = true /\
  reaches_store (world staffed (answered 2) [true]) = true /\
  Db.user_roles
    (db (snd (PermissionsManager.handleDelete "p1" PermissionsManager.initial
                (world staffed (answered 2) [true])))) = Db.user_roles staffed.
Proof.
  split; [reflexivity |]. split; [reflexivity |].
  apply (delete_permission_cascades "p1" PermissionsManager.initial
           (world staffed (answered 2) [true])); reflexivity.
Defined.

(** X7 at work: [read:reports] created on the seed rows. *)
Lemma create_then_listed_witness :
  In (created "p10" 1%Z "read:reports" "Can view reports")
     (PermissionsManager.permissions
        (fst (PermissionsManager.handleSubmit "read:reports" "Can view reports"
                PermissionsManager.initial
                (world seed [ok "p10" 1%Z; ok "" 2%Z] [])))).
Proof.
  apply (create_then_listed "read:reports" "Can view reports"
           PermissionsManager.initial
           (world seed [ok "p10" 1%Z; ok "" 2%Z] [])
           (ok "p10" 1%Z) (ok "" 2%Z) []); reflexivity.
Defined.

(** X8 at work: the second of the three selects is lost. *)
Lemma composite_fetch_is_all_or_nothing_witness :
  delivered_next 3 (world assigned [ok "" 1%Z; down; ok "" 2%Z] []) = false /\
  rolePermissions
    (fst (fetchData initial (world assigned [ok "" 1%Z; down; ok "" 2%Z] []))) = [].
Proof.
  split; [reflexivity |].
  rewrite (composite_fetch_is_all_or_nothing initial
             (world assigned [ok "" 1%Z; down; ok "" 2%Z] [])); reflexivity.
Defined.

(** X9 at work: the grant of [p1] to [r1], fetched. *)
Lemma fetched_grants_are_consistent_witness :
  exists r,
    In r (roles (fst (fetchData initial (world assigned (answered 3) [])))) /\
    Db.id r = "r1" /\ Db.name r = "Administrator".
Proof.
  apply (fetched_grants_are_consistent initial (world assigned (answered 3) [])
           eq_refl
           {| role_id := "r1"; permission_id := "p1";
              role := {| name := "Administrator" |};
              permission := {| name := "read:users" |} |}).
  left. reflexivity.
Defined.

(** X10 at work: [p1] unlinked from [r1]. *)
Lemma unlink_removes_that_grant_witness :
  reaches_store (world assigned (answered 4) []) = true /\
  persisted_for "r1"
    (db (snd (handleRemovePermission "r1" "p1" initial
                (world assigned (answered 4) [])))) =
  filter (fun q => negb (q =? "p1")) (persisted_for "r1" assigned).
Proof.
  split; [reflexivity |].
  apply (unlink_removes_that_grant "r1" "p1" initial
           (world assigned (answered 4) [])).
  reflexivity.
Defined.

(** X11 at work: [p2] unlinked from [r1], which does not hold it. *)
Lemma unlink_of_absent_grant_reports_success_witness :
  Db.role_permissions
    (db (snd (handleRemovePermission "r1" "p2" initial
                (world assigned (answered 4) [])))) =
  Db.role_permissions assigned.
Proof.
  apply (unlink_of_absent_grant_reports_success "r1" "p2" initial
           (world assigned (answered 4) [])); reflexivity.
Defined.

(** X12 at work: [p2] checked and unchecked on the selection [p1]. *)
Lemma toggle_sets_membership_witness :
  selectedPermissions
    (fst (handlePermissionToggle "p2" false
            (fst (handlePermissionToggle "p2" true
                    (setSelectedPermissions ["p1"] initial) (world seed [] [])))
            (world seed [] []))) = ["p1"] /\
  NoDup (selectedPermissions
           (fst (handlePermissionToggle "p2" true
                   (setSelectedPermissions ["p1"] initial) (world seed [] [])))).
Proof.
  destruct (toggle_sets_membership "p2" true
              (setSelectedPermissions ["p1"] initial) (world seed [] []))
    as (_ & _ & Hback & Hnodup).
  split.
  - apply Hback. simpl. intuition discriminate.
  - apply Hnodup.
    + repeat constructor. simpl. tauto.
    + right. simpl. intuition discriminate.
Defined.

(** X13 at work: [p2] twice for [r1], which holds [p1]. *)
Lemma repeated_id_empties_role_witness :
  persisted_for "r1"
    (db (snd (commit "r1" ["p2"; "p2"] initial (world assigned (answered 2) [])))) = [].
Proof.
  apply (repeated_id_empties_role "r1" ["p2"; "p2"] initial
           (world assigned (answered 2) [])).
  - discriminate.
  - intros Hnd. inversion Hnd as [|? ? Hin _]. apply Hin. left. reflexivity.
  - reflexivity.
Defined.

(** X14 at work: a permission the store does not hold, for [r1]. *)
Lemma unknown_id_empties_role_witness :
  exists c,
    log (snd (commit "r1" ["p0"] initial (world assigned (answered 2) []))) =
      [Requested (DeleteRolePermissions "r1" None);
       Requested (InsertRolePermissions [("r1", "p0")]);
       Toasted (failure (message (Db.ForeignKeyViolation c)))].
Proof.
  destruct (unknown_id_empties_role "r1" ["p0"] initial
              (world assigned (answered 2) []))
    as (c & Hrun & _).
  - discriminate.
  - discriminate.
  - repeat constructor. simpl. tauto.
  - right. exists "p0". split; [left; reflexivity | reflexivity].
  - reflexivity.
  - exists c. rewrite Hrun. reflexivity.
Defined.

(** X15 at work: [p2] committed for [r1], the insert lost. *)
Lemma lost_insert_empties_role_witness :
  persisted_for "r1"
    (db (snd (commit "r1" ["p2"] initial (world assigned [ok "" 1%Z; down] [])))) = [].
Proof.
  apply (lost_insert_empties_role "r1" ["p2"] initial
           (world assigned [ok "" 1%Z; down] []) (ok "" 1%Z) down []);
    try reflexivity; discriminate.
Defined.

(** X17 at work: [p1] deleted while [r1] and [r2] hold it. *)
Lemma deleted_permission_leaves_every_view_witness :
  ~ In "p1"
      (permissionsFor "r1"
         (fst (fetchData initial
                 (snd (PermissionsManager.handleDelete "p1" PermissionsManager.initial
                         (world staffed (answered 5) [true])))))).
Proof.
  apply (deleted_permission_leaves_every_view "p1" PermissionsManager.initial initial
           (world staffed (answered 5) [true])); reflexivity.
Defined.

(** X18 at work: [r1] deleted while it holds [p1]. *)
Lemma deleted_role_leaves_every_view_witness :
  getRolePermissions "r1"
    (fst (fetchData initial
            (snd (RolesManager.handleDelete "r1" RolesManager.initial
                    (world staffed (answered 5) [true]))))) = [].
Proof.
  apply (deleted_role_leaves_every_view "r1" RolesManager.initial initial
           (world staffed (answered 5) [true])); reflexivity.
Defined.

(** X19 at work: a second role named [Viewer]. *)
Lemma role_name_taken_fails_witness :
  exists q error,
    RolesManager.handleSubmit "Viewer" "d" RolesManager.initial
      (world seed (answered 1) []) =
      (RolesManager.initial,
       {| db := seed; env := []; answers := [];
          log := [Requested q; Toasted (failure (message error))] |}) /\
    exists c, error = Db.UniqueViolation c.
Proof.
  destruct (role_name_taken_fails "Viewer" "d" RolesManager.initial
              (world seed (answered 1) []))
    as (q & error & Hrun & Herr).
  - exists (seeded "r4" "Viewer" "Read-only access").
    split; [simpl; auto | reflexivity].
  - exists q, error. split; [exact Hrun | apply Herr; reflexivity].
Defined.

(** X22 at work: [r1], which holds [p1], selected and assigned as is. *)
Lemma untouched_selection_round_trips_witness :
  persisted_for "r1"
    (db (snd (run [RoleSelect "r1"; ClickAssign]
                (fst (fetchData initial (world assigned (answered 3) [])))
                (world assigned (answered 5) [])))) = persisted_for "r1" assigned.
Proof.
  destruct (untouched_selection_round_trips "r1"
              (fst (fetchData initial (world assigned (answered 3) [])))
              (world assigned (answered 5) []))
    as (Hsame & _ & _).
  - discriminate.
  - exact assigned_keys_hold.
  - reflexivity.
  - discriminate.
  - reflexivity.
  - exact Hsame.
Defined.

End FurtherRuns.
